(** * d2q9-bgk lattice Boltzmann kernel (d2q9-bgk_ver3.c)

    A shallow embedding of the streaming/collision kernel, the forcing
    step, the driver loop and the diagnostics of [d2q9-bgk_ver3.c], with
    the properties of its prose specification.

    The C code computes on [float].  The embedding is written once over
    an interface of the arithmetic operations the code uses ([Arith]) and
    is instantiated twice: at IEEE-754 binary32 (the [SpecFloat] model of
    the Standard Library, on which it runs) and at the real numbers
    (exact arithmetic, for conservation laws).  C [int]s are integers of
    [Z]; every index the code forms is shown to lie inside the buffers,
    whose size [nx*ny] is itself a C [int].  Buffers are lists; an access
    outside a buffer is undefined behaviour in C and is [None] here. *)

From Stdlib Require Import ZArith Lia List Reals Lra.
From Stdlib Require Import Floats.SpecFloat.
From stdpp Require Import base option list.

Local Open Scope Z_scope.

(** ** Arithmetic interface *)

Class Arith (F : Type) := {
  fadd : F -> F -> F;
  fsub : F -> F -> F;
  fmul : F -> F -> F;
  fdiv : F -> F -> F;
  fneg : F -> F;
  fsqrt : F -> F;
  (** [fgt a b] is the C comparison [a > b] *)
  fgt : F -> F -> bool;
  (** integer literals and the conversion [(float) n] *)
  of_int : Z -> F
}.

(** IEEE-754 binary32, round to nearest even. *)
Module F32.
Definition prec : Z := 24.
Definition emax : Z := 128.
Definition float := spec_float.

Definition gt (a b : float) : bool :=
  match SFcompare a b with
  | Some Gt => true
  | _ => false
  end.

Definition is_nan (a : float) : bool :=
  match a with
  | S754_nan => true
  | _ => false
  end.
End F32.

#[export] Instance F32_arith : Arith F32.float := {
  fadd := SFadd F32.prec F32.emax;
  fsub := SFsub F32.prec F32.emax;
  fmul := SFmul F32.prec F32.emax;
  fdiv := SFdiv F32.prec F32.emax;
  fneg := SFopp;
  fsqrt := SFsqrt F32.prec F32.emax;
  fgt := F32.gt;
  of_int := fun n => binary_normalize F32.prec F32.emax n 0 false
}.

(** Exact real arithmetic. *)
Definition Rgt_bool (a b : R) : bool :=
  if Rlt_dec b a then true else false.

#[export] Instance R_arith : Arith R := {
  fadd := Rplus;
  fsub := Rminus;
  fmul := Rmult;
  fdiv := Rdiv;
  fneg := Ropp;
  fsqrt := sqrt;
  fgt := Rgt_bool;
  of_int := IZR
}.

(** ** Loops

    [for_loop n i body s] runs [body i], [body (i+1)], ... [n] times:
    the C loop [for (int i = 0; i < N; i++) body] is
    [for_loop (Z.to_nat N) 0 body]. *)
Fixpoint for_loop {S : Type} (n : nat) (i : Z)
    (body : Z -> S -> option S) (s : S) : option S :=
  match n with
  | O => Some s
  | Datatypes.S n' => s' ← body i s; for_loop n' (i + 1) body s'
  end.

(** ** Data model *)

Definition NSPEEDS : nat := 9.

(** The struct [t_speed] holds [float* speeds[NSPEEDS]]: one buffer per
    speed. *)
Abbreviation t_speed F := (list (list F)).

Section Lbm.

Context {F : Type} {AF : Arith F}.

(** struct to hold the parameter values *)
Record t_param := {
  nx : Z;
  ny : Z;
  maxIters : Z;
  reynolds_dim : Z;
  density : F;
  accel : F;
  omega : F
}.


(** [c->speeds[k][i]] as an rvalue *)
Definition load (c : t_speed F) (k : nat) (i : Z) : option F :=
  b ← c !! k;
  if decide (0 <= i) then b !! Z.to_nat i else None.

(** [c->speeds[k][i] = v] *)
Definition store (c : t_speed F) (k : nat) (i : Z) (v : F) : option (t_speed F) :=
  b ← c !! k;
  if decide (0 <= i < Z.of_nat (length b))
  then Some (<[k := <[Z.to_nat i := v]> b]> c)
  else None.

(** [obstacles[i]] *)
Definition load_int (o : list Z) (i : Z) : option Z :=
  if decide (0 <= i) then o !! Z.to_nat i else None.

(** [c->speeds[k][i] += v] *)
Definition add_to (c : t_speed F) (k : nat) (i : Z) (v : F) : option (t_speed F) :=
  x ← load c k i; store c k i (fadd x v).

(** [c->speeds[k][i] -= v] *)
Definition sub_from (c : t_speed F) (k : nat) (i : Z) (v : F) : option (t_speed F) :=
  x ← load c k i; store c k i (fsub x v).

(** ** accelerate_flow *)
Definition accelerate_flow (params : t_param) (cells : t_speed F)
    (obstacles : list Z) : option (t_speed F) :=
  let w1 := fdiv (fmul (density params) (accel params)) (of_int 9) in
  let w2 := fdiv (fmul (density params) (accel params)) (of_int 36) in
  let jj := ny params - 2 in
  for_loop (Z.to_nat (nx params)) 0 (fun ii cells =>
    let i := ii + jj * nx params in
    o ← load_int obstacles i;
    if decide (o = 0) then
      s3 ← load cells 3 i;
      if fgt (fsub s3 w1) (of_int 0) then
        s6 ← load cells 6 i;
        if fgt (fsub s6 w2) (of_int 0) then
          s7 ← load cells 7 i;
          if fgt (fsub s7 w2) (of_int 0) then
            cells ← add_to cells 1 i w1;
            cells ← add_to cells 5 i w2;
            cells ← add_to cells 8 i w2;
            cells ← sub_from cells 3 i w1;
            cells ← sub_from cells 6 i w2;
            sub_from cells 7 i w2
          else Some cells
        else Some cells
      else Some cells
    else Some cells) cells.

(** ** propagate: the fused streaming / bounce-back / collision kernel *)

(** [tmp_cells->speeds[k][i] = v_k] for the speeds [k], [k+1], ... in
    the order of the assignments of the source. *)
Fixpoint store_from (k : nat) (c : t_speed F) (i : Z) (vs : list F)
    : option (t_speed F) :=
  match vs with
  | [] => Some c
  | v :: vs' => c' ← store c k i v; store_from (S k) c' i vs'
  end.

(** The nine local variables [speeds0] ... [speeds8] of the loop body. *)
Definition cell9 : Type := (F * F * F * F * F * F * F * F * F)%type.

Definition nth9 (g : cell9) (k : nat) : F :=
  let '(s0, s1, s2, s3, s4, s5, s6, s7, s8) := g in
  match k with
  | 0 => s0 | 1 => s1 | 2 => s2 | 3 => s3 | 4 => s4
  | 5 => s5 | 6 => s6 | 7 => s7 | _ => s8
  end%nat.

(** Streaming: the neighbour indices and the nine reads from [cells]. *)
Definition gather (params : t_param) (cells : t_speed F) (jj ii : Z)
    : option cell9 :=
  let y_n := Z.rem (jj + 1) (ny params) in
  let x_e := Z.rem (ii + 1) (nx params) in
  let y_s := if decide (jj = 0) then jj + ny params - 1 else jj - 1 in
  let x_w := if decide (ii = 0) then ii + nx params - 1 else ii - 1 in
  speeds0 ← load cells 0 (ii + jj * nx params);
  speeds1 ← load cells 1 (x_w + jj * nx params);
  speeds2 ← load cells 2 (ii + y_s * nx params);
  speeds3 ← load cells 3 (x_e + jj * nx params);
  speeds4 ← load cells 4 (ii + y_n * nx params);
  speeds5 ← load cells 5 (x_w + y_s * nx params);
  speeds6 ← load cells 6 (x_e + y_s * nx params);
  speeds7 ← load cells 7 (x_e + y_n * nx params);
  speeds8 ← load cells 8 (x_w + y_n * nx params);
  Some (speeds0, speeds1, speeds2, speeds3, speeds4,
        speeds5, speeds6, speeds7, speeds8).

Definition local_density_of (g : cell9) : F :=
  let '(speeds0, speeds1, speeds2, speeds3, speeds4,
        speeds5, speeds6, speeds7, speeds8) := g in
  fadd (fadd (fadd (fadd (fadd (fadd (fadd (fadd
    speeds0 speeds1) speeds2) speeds3) speeds4) speeds5) speeds6)
    speeds7) speeds8.

Definition u_x_of (g : cell9) : F :=
  let '(speeds0, speeds1, speeds2, speeds3, speeds4,
        speeds5, speeds6, speeds7, speeds8) := g in
  fdiv (fsub (fsub (fsub (fadd (fadd speeds1 speeds5) speeds8)
                speeds3) speeds6) speeds7) (local_density_of g).

Definition u_y_of (g : cell9) : F :=
  let '(speeds0, speeds1, speeds2, speeds3, speeds4,
        speeds5, speeds6, speeds7, speeds8) := g in
  fdiv (fsub (fsub (fsub (fadd (fadd speeds2 speeds5) speeds6)
                speeds4) speeds7) speeds8) (local_density_of g).

(** The values assigned to [tmp_cells->speeds[0..8]] in an obstacle
    cell. *)
Definition rebound_out (g : cell9) : list F :=
  let '(speeds0, speeds1, speeds2, speeds3, speeds4,
        speeds5, speeds6, speeds7, speeds8) := g in
  [speeds0; speeds3; speeds4; speeds1; speeds2;
   speeds7; speeds8; speeds5; speeds6].

(** The values assigned to [tmp_cells->speeds[0..8]] in a fluid cell:
    equilibrium densities and relaxation step. *)
Definition collide_out (params : t_param) (g : cell9) : list F :=
  let '(speeds0, speeds1, speeds2, speeds3, speeds4,
        speeds5, speeds6, speeds7, speeds8) := g in
  let c_sq := fdiv (of_int 1) (of_int 3) in
  let c_2sq2 := fmul (fmul (of_int 2) c_sq) c_sq in
  let c_2sq := fmul (of_int 2) c_sq in
  let w0 := fdiv (of_int 4) (of_int 9) in
  let w1 := fdiv (of_int 1) (of_int 9) in
  let w2 := fdiv (of_int 1) (of_int 36) in
  let local_density := local_density_of g in
  let u_x := u_x_of g in
  let u_y := u_y_of g in
  let u_sq := fadd (fmul u_x u_x) (fmul u_y u_y) in
  let u1 := u_x in
  let u2 := u_y in
  let u3 := fneg u_x in
  let u4 := fneg u_y in
  let u5 := fadd u_x u_y in
  let u6 := fadd (fneg u_x) u_y in
  let u7 := fsub (fneg u_x) u_y in
  let u8 := fsub u_x u_y in
  let d_equ0 :=
    fmul (fmul w0 local_density) (fsub (of_int 1) (fdiv u_sq c_2sq)) in
  let d_equ w u :=
    fmul (fmul w local_density)
         (fsub (fadd (fadd (of_int 1) (fdiv u c_sq))
                     (fdiv (fmul u u) c_2sq2))
               (fdiv u_sq c_2sq)) in
  let relax s d := fadd s (fmul (omega params) (fsub d s)) in
  [relax speeds0 d_equ0;
   relax speeds1 (d_equ w1 u1);
   relax speeds2 (d_equ w1 u2);
   relax speeds3 (d_equ w1 u3);
   relax speeds4 (d_equ w1 u4);
   relax speeds5 (d_equ w2 u5);
   relax speeds6 (d_equ w2 u6);
   relax speeds7 (d_equ w2 u7);
   relax speeds8 (d_equ w2 u8)].

(** [sqrtf((u_x * u_x) + (u_y * u_y))] *)
Definition speed_of (g : cell9) : F :=
  fsqrt (fadd (fmul (u_x_of g) (u_x_of g)) (fmul (u_y_of g) (u_y_of g))).

(** The body of the two nested loops, for the cell in row [jj] and
    column [ii]; the state is [(tmp_cells, tot_u, tot_cells)]. *)
Definition propagate_cell (params : t_param) (cells : t_speed F)
    (obstacles : list Z) (jj ii : Z) (st : (t_speed F) * F * Z)
    : option ((t_speed F) * F * Z) :=
  let '(tmp_cells, tot_u, tot_cells) := st in
  g ← gather params cells jj ii;
  o ← load_int obstacles (ii + jj * nx params);
  tmp_cells ← store_from 0 tmp_cells (ii + jj * nx params)
                (if decide (o ≠ 0) then rebound_out g
                 else collide_out params g);
  o' ← load_int obstacles (ii + jj * nx params);
  let tot_u :=
    fadd tot_u (if decide (o' ≠ 0) then of_int 0 else speed_of g) in
  o'' ← load_int obstacles (ii + jj * nx params);
  let tot_cells := tot_cells + (if decide (o'' ≠ 0) then 0 else 1) in
  Some (tmp_cells, tot_u, tot_cells).

Definition propagate (params : t_param) (cells tmp_cells : t_speed F)
    (obstacles : list Z) : option ((t_speed F) * F) :=
  st ← for_loop (Z.to_nat (ny params)) 0 (fun jj st =>
         for_loop (Z.to_nat (nx params)) 0 (fun ii st =>
           propagate_cell params cells obstacles jj ii st) st)
       (tmp_cells, of_int 0, 0);
  let '(tmp_cells, tot_u, tot_cells) := st in
  Some (tmp_cells, fdiv tot_u (of_int tot_cells)).

(** ** timestep

    [cells] is updated in place by [accelerate_flow], [tmp_cells] is
    written by [propagate]; both buffers are returned with the average
    velocity. *)
Definition timestep (params : t_param) (cells tmp_cells : t_speed F)
    (obstacles : list Z) : option ((t_speed F) * (t_speed F) * F) :=
  cells ← accelerate_flow params cells obstacles;
  r ← propagate params cells tmp_cells obstacles;
  Some (cells, r.1, r.2).



(** ** The timestep loop of main

    [av_vels] is the buffer of [maxIters] floats allocated by
    [initialise]; [calls] counts the invocations of [timestep] (it is
    not a variable of the program). *)
Record main_state := {
  st_cells : t_speed F;
  st_tmp_cells : t_speed F;
  st_av_vels : list F;
  st_calls : nat
}.

Inductive fault :=
  (** [timestep] accessed a grid buffer out of bounds *)
  | GridFault (calls : nat)
  (** [av_vels[idx]] lies outside the allocation *)
  | AvVelsFault (idx : Z) (calls : nat)
  | OutOfFuel.

(** [av_vels[i] = v] *)
Definition store_av (av_vels : list F) (i : Z) (v : F) : option (list F) :=
  if decide (0 <= i < Z.of_nat (length av_vels))
  then Some (<[Z.to_nat i := v]> av_vels)
  else None.

(** [for (int tt = 0; tt < params.maxIters; tt = tt + 2)], from the
    current value of [tt]. *)
Fixpoint main_loop (fuel : nat) (params : t_param) (obstacles : list Z)
    (tt : Z) (st : main_state) : fault + main_state :=
  match fuel with
  | O => inl OutOfFuel
  | S fuel' =>
    if decide (tt < maxIters params) then
      match timestep params (st_cells st) (st_tmp_cells st) obstacles with
      | None => inl (GridFault (st_calls st))
      | Some (cells, tmp_cells, av) =>
        match store_av (st_av_vels st) tt av with
        | None => inl (AvVelsFault tt (S (st_calls st)))
        | Some av_vels =>
          match timestep params tmp_cells cells obstacles with
          | None => inl (GridFault (S (st_calls st)))
          | Some (tmp_cells, cells, av') =>
            match store_av av_vels (tt + 1) av' with
            | None => inl (AvVelsFault (tt + 1) (S (S (st_calls st))))
            | Some av_vels =>
              main_loop fuel' params obstacles (tt + 2)
                {| st_cells := cells; st_tmp_cells := tmp_cells;
                   st_av_vels := av_vels;
                   st_calls := S (S (st_calls st)) |}
            end
          end
        end
      end
    else inr st
  end.

(** ** write_values *)

(** One line of the final-state file:
    [ii jj u_x u_y u pressure obstacles[...]]. *)
Record state_line := {
  line_ii : Z;
  line_jj : Z;
  line_u_x : F;
  line_u_y : F;
  line_u : F;
  line_pressure : F;
  line_obstacle : Z
}.

Definition write_values (params : t_param) (cells : t_speed F)
    (obstacles : list Z) (av_vels : list F)
    : option (list state_line * list (Z * F)) :=
  let c_sq := fdiv (of_int 1) (of_int 3) in
  final_state ←
    for_loop (Z.to_nat (ny params)) 0 (fun jj out =>
      for_loop (Z.to_nat (nx params)) 0 (fun ii out =>
        let i := ii + jj * nx params in
        o ← load_int obstacles i;
        v ← (if decide (o ≠ 0) then
               Some (of_int 0, of_int 0, of_int 0,
                     fmul (density params) c_sq)
             else
               local_density ←
                 for_loop NSPEEDS 0 (fun kk local_density =>
                   x ← load cells (Z.to_nat kk) i;
                   Some (fadd local_density x)) (of_int 0);
               s1 ← load cells 1 i; s5 ← load cells 5 i;
               s8 ← load cells 8 i; s3 ← load cells 3 i;
               s6 ← load cells 6 i; s7 ← load cells 7 i;
               let u_x := fdiv (fsub (fadd (fadd s1 s5) s8)
                                     (fadd (fadd s3 s6) s7)) local_density in
               s2 ← load cells 2 i; s4 ← load cells 4 i;
               let u_y := fdiv (fsub (fadd (fadd s2 s5) s6)
                                     (fadd (fadd s4 s7) s8)) local_density in
               let u := fsqrt (fadd (fmul u_x u_x) (fmul u_y u_y)) in
               Some (u_x, u_y, u, fmul local_density c_sq));
        let '(u_x, u_y, u, pressure) := v in
        flag ← load_int obstacles (ii * nx params + jj);
        Some (out ++ [{| line_ii := ii; line_jj := jj;
                         line_u_x := u_x; line_u_y := u_y; line_u := u;
                         line_pressure := pressure;
                         line_obstacle := flag |}])) out) [];
  av_lines ←
    for_loop (Z.to_nat (maxIters params)) 0 (fun ii out =>
      x ← av_vels !! Z.to_nat ii; Some (out ++ [(ii, x)])) [];
  Some (final_state, av_lines).

(** ** av_velocity *)

(** The state of the two loops is [(tot_u, tot_cells)]. *)
Definition av_velocity (params : t_param) (cells : t_speed F)
    (obstacles : list Z) : option F :=
  st ←
    for_loop (Z.to_nat (ny params)) 0 (fun jj st =>
      for_loop (Z.to_nat (nx params)) 0 (fun ii (st : F * Z) =>
        let i := ii + jj * nx params in
        o ← load_int obstacles i;
        if decide (o = 0) then
          local_density ←
            for_loop NSPEEDS 0 (fun kk local_density =>
              x ← load cells (Z.to_nat kk) i;
              Some (fadd local_density x)) (of_int 0);
          s1 ← load cells 1 i; s5 ← load cells 5 i; s8 ← load cells 8 i;
          s3 ← load cells 3 i; s6 ← load cells 6 i; s7 ← load cells 7 i;
          let u_x := fdiv (fsub (fadd (fadd s1 s5) s8)
                                (fadd (fadd s3 s6) s7)) local_density in
          s2 ← load cells 2 i; s5' ← load cells 5 i; s6' ← load cells 6 i;
          s4 ← load cells 4 i; s7' ← load cells 7 i; s8' ← load cells 8 i;
          let u_y := fdiv (fsub (fadd (fadd s2 s5') s6')
                                (fadd (fadd s4 s7') s8')) local_density in
          Some (fadd st.1 (fsqrt (fadd (fmul u_x u_x) (fmul u_y u_y))),
                st.2 + 1)
        else Some st) st) (of_int 0, 0);
  Some (fdiv st.1 (of_int st.2)).

(** ** calc_reynolds *)
Definition calc_reynolds (params : t_param) (cells : t_speed F)
    (obstacles : list Z) : option F :=
  let viscosity :=
    fmul (fdiv (of_int 1) (of_int 6))
         (fsub (fdiv (of_int 2) (omega params)) (of_int 1)) in
  av ← av_velocity params cells obstacles;
  Some (fdiv (fmul av (of_int (reynolds_dim params))) viscosity).

(** ** initialise: the map of obstacles

    One call of [fscanf(fp, "%d %d %d\n", &xx, &yy, &blocked)] that did
    not return [EOF]: either it converted three integers, or it
    returned another count. *)
Inductive scan :=
  | Scanned (xx yy blocked : Z)
  | Short (retval : Z).

(** The messages [initialise] dies with while it reads the obstacle
    file; [MaskFault] is a store outside the mask. *)
Inductive obstacle_error :=
  (** expected 3 values per line in obstacle file *)
  | Expected3
  (** obstacle x-coord out of range *)
  | XOutOfRange
  (** obstacle y-coord out of range *)
  | YOutOfRange
  (** obstacle blocked value should be 1 *)
  | BlockedNot1
  | MaskFault.

(** [obstacles[i] = v] *)
Definition store_int (o : list Z) (i : Z) (v : Z) : option (list Z) :=
  if decide (0 <= i < Z.of_nat (length o))
  then Some (<[Z.to_nat i := v]> o)
  else None.

(** first set all cells in obstacle array to zero *)
Definition zero_obstacles (params : t_param) (obstacles : list Z)
    : option (list Z) :=
  for_loop (Z.to_nat (ny params)) 0 (fun jj o =>
    for_loop (Z.to_nat (nx params)) 0 (fun ii o =>
      store_int o (ii + jj * nx params) 0) o) obstacles.

(** read-in the blocked cells list *)
Fixpoint read_obstacles (params : t_param) (lines : list scan)
    (obstacles : list Z) : obstacle_error + list Z :=
  match lines with
  | [] => inr obstacles
  | Short _ :: _ => inl Expected3
  | Scanned xx yy blocked :: rest =>
    if decide (xx < 0 \/ xx > nx params - 1) then inl XOutOfRange
    else if decide (yy < 0 \/ yy > ny params - 1) then inl YOutOfRange
    else if decide (blocked ≠ 1) then inl BlockedNot1
    else
      match store_int obstacles (xx + yy * nx params) blocked with
      | None => inl MaskFault
      | Some obstacles' => read_obstacles params rest obstacles'
      end
  end.

Definition load_obstacles (params : t_param) (lines : list scan)
    (obstacles : list Z) : obstacle_error + list Z :=
  match zero_obstacles params obstacles with
  | None => inl MaskFault
  | Some zeroed => read_obstacles params lines zeroed
  end.

End Lbm.

Arguments t_param F : clear implicits.
Arguments main_state F : clear implicits.
Arguments state_line F : clear implicits.
Arguments cell9 F : clear implicits.


(** * Properties *)

(** ** Loops and folds *)

(** The value a loop accumulates: [fold_upto n g a] folds [g 0], [g 1],
    ..., [g (n-1)] into [a], in that order. *)
Fixpoint fold_upto {A : Type} (n : nat) (g : Z -> A -> A) (a : A) : A :=
  match n with
  | O => a
  | S k => g (Z.of_nat k) (fold_upto k g a)
  end.

Lemma for_loop_inv {S : Type} (P : nat -> S -> Prop)
    (body : Z -> S -> option S) (n : nat) (i0 : Z) (s : S) :
  P 0%nat s ->
  (forall k s, (k < n)%nat -> P k s ->
     exists s', body (i0 + Z.of_nat k) s = Some s' /\ P (Datatypes.S k) s') ->
  exists s', for_loop n i0 body s = Some s' /\ P n s'.
Proof.
  revert P i0 s. induction n as [|n IH]; intros P i0 s H0 Hstep.
  - exists s. split; [reflexivity | exact H0].
  - destruct (Hstep 0%nat s ltac:(lia) H0) as (s1 & Hb & H1).
    rewrite Z.add_0_r in Hb.
    destruct (IH (fun k => P (Datatypes.S k)) (i0 + 1) s1 H1) as (s2 & Hl & H2).
    + intros k t Hk Hp.
      destruct (Hstep (Datatypes.S k) t ltac:(lia) Hp) as (t' & Hb' & Hp').
      exists t'. split; [| exact Hp'].
      rewrite <- Hb'. f_equal. lia.
    + exists s2. split; [| exact H2].
      simpl. rewrite Hb. simpl. exact Hl.
Qed.


(** ** Buffers *)

Section Buffers.

Context {F : Type} {AF : Arith F}.

(** A well-formed lattice state for [n] cells: [NSPEEDS] buffers of [n]
    floats each, as allocated in [main]. *)
Definition wf (n : Z) (c : t_speed F) : Prop :=
  length c = NSPEEDS /\ Forall (fun b => Z.of_nat (length b) = n) c.

(** The value at [c->speeds[k][i]] where it exists. *)
Definition peek (c : t_speed F) (k : nat) (i : Z) : F :=
  default (of_int 0) (load c k i).

Lemma load_wf n c k i :
  wf n c -> (k < NSPEEDS)%nat -> 0 <= i < n ->
  load c k i = Some (peek c k i).
Proof.
  intros [Hl Hb] Hk Hi. rewrite Forall_lookup in Hb. unfold peek, load.
  destruct (lookup_lt_is_Some_2 c k ltac:(lia)) as [b Eb].
  rewrite Eb. simpl. rewrite decide_True by lia.
  destruct (lookup_lt_is_Some_2 b (Z.to_nat i)) as [x Ex].
  { specialize (Hb _ _ Eb). lia. }
  rewrite Ex. reflexivity.
Qed.

Lemma load_is_Some n c k i x :
  wf n c -> load c k i = Some x -> (k < NSPEEDS)%nat /\ 0 <= i < n.
Proof.
  intros [Hl Hb]. rewrite Forall_lookup in Hb. unfold load.
  destruct (c !! k) as [b|] eqn:Eb; simpl; [|discriminate].
  destruct (decide (0 <= i)); [|discriminate]. intros Hx.
  specialize (Hb k b Eb).
  apply lookup_lt_Some in Eb. apply lookup_lt_Some in Hx.
  unfold NSPEEDS in *. lia.
Qed.

Lemma store_wf n c k i v :
  wf n c -> (k < NSPEEDS)%nat -> 0 <= i < n ->
  exists c', store c k i v = Some c' /\ wf n c' /\
    forall k' i', load c' k' i' =
      if decide (k' = k /\ i' = i) then Some v else load c k' i'.
Proof.
  intros [Hl Hb] Hk Hi. rewrite Forall_lookup in Hb. unfold store.
  destruct (lookup_lt_is_Some_2 c k ltac:(lia)) as [b Eb].
  rewrite Eb. simpl. pose proof (Hb _ _ Eb) as Hlen.
  rewrite decide_True by lia.
  eexists. split; [reflexivity|]. split.
  - split; [rewrite length_insert; exact Hl|].
    apply Forall_lookup. intros k' b' E'. destruct (decide (k' = k)) as [->|Hne].
    + rewrite list_lookup_insert_eq in E' by lia.
      injection E' as <-. rewrite length_insert. exact Hlen.
    + rewrite list_lookup_insert_ne in E' by congruence. eauto.
  - intros k' i'. unfold load.
    destruct (decide (k' = k)) as [->|Hne].
    + rewrite list_lookup_insert_eq by lia. rewrite Eb. simpl.
      destruct (decide (0 <= i')) as [Hi'|Hi'].
      * destruct (decide (i' = i)) as [->|Hni].
        -- rewrite decide_True by auto.
           apply list_lookup_insert_eq. lia.
        -- rewrite decide_False by tauto.
           apply list_lookup_insert_ne. lia.
      * rewrite decide_False by lia. reflexivity.
    + rewrite list_lookup_insert_ne by congruence.
      rewrite decide_False by tauto. reflexivity.
Qed.

Lemma store_from_wf n vs : forall k0 c i,
  wf n c -> (k0 + length vs <= NSPEEDS)%nat -> 0 <= i < n ->
  exists c', store_from k0 c i vs = Some c' /\ wf n c' /\
    forall k' i', load c' k' i' =
      if decide (i' = i /\ (k0 <= k' < k0 + length vs)%nat)
      then vs !! (k' - k0)%nat else load c k' i'.
Proof.
  induction vs as [|v vs IH]; intros k0 c i Hwf Hk Hi; simpl in *.
  - exists c. split; [reflexivity|]. split; [exact Hwf|].
    intros k' i'. rewrite decide_False by lia. reflexivity.
  - destruct (store_wf n c k0 i v Hwf ltac:(lia) Hi) as (c1 & E1 & W1 & L1).
    rewrite E1. simpl.
    destruct (IH (S k0) c1 i W1 ltac:(lia) Hi) as (c2 & E2 & W2 & L2).
    exists c2. split; [exact E2|]. split; [exact W2|].
    intros k' i'. rewrite L2, L1.
    destruct (decide (i' = i)) as [->|Hni].
    + destruct (decide (k' = k0)) as [->|Hnk].
      * rewrite decide_False by lia. rewrite decide_True by auto.
        rewrite decide_True by lia. rewrite Nat.sub_diag. reflexivity.
      * destruct (decide (S k0 <= k' < S k0 + length vs)%nat) as [Hin|Hout].
        -- rewrite decide_True by lia. rewrite decide_True by lia.
           replace (k' - k0)%nat with (S (k' - S k0)) by lia. reflexivity.
        -- rewrite decide_False by tauto. rewrite decide_False by tauto.
           rewrite decide_False by lia. reflexivity.
    + rewrite decide_False by tauto. rewrite decide_False by tauto.
      rewrite decide_False by tauto. reflexivity.
Qed.

Lemma peek_load c k i x : load c k i = Some x -> peek c k i = x.
Proof. unfold peek. intros ->. reflexivity. Qed.

End Buffers.

(** ** Grid geometry *)

(** The row-major addressing convention [ii + jj*nx] of the program. *)
Definition index {F : Type} (params : t_param F) (row col : Z) : Z :=
  col + row * nx params.

(** The discrete velocities of the nine speeds, as numbered in the
    header of the source: 0 rest, 1 east, 2 north, 3 west, 4 south,
    5 north-east, 6 north-west, 7 south-west, 8 south-east. *)
Definition cx (k : nat) : Z := nth k [0; 1; 0; -1; 0; 1; -1; -1; 1] 0.
Definition cy (k : nat) : Z := nth k [0; 0; 1; 0; -1; 1; 1; -1; -1] 0.

(** The speed of the reversed velocity. *)
Definition opposite (k : nat) : nat :=
  nth k [0; 3; 4; 1; 2; 7; 8; 5; 6]%nat 0%nat.

Lemma opposite_velocity k :
  (k < NSPEEDS)%nat ->
  cx (opposite k) = - cx k /\ cy (opposite k) = - cy k.
Proof.
  intros Hk. unfold NSPEEDS in Hk.
  do 9 (destruct k as [|k]; [split; reflexivity|]). lia.
Qed.

Lemma wrap_next n j :
  0 <= j < n -> Z.rem (j + 1) n = (j + 1) mod n.
Proof. intros H. apply Z.rem_mod_nonneg; lia. Qed.

Lemma wrap_prev n j :
  0 <= j < n ->
  (if decide (j = 0) then j + n - 1 else j - 1) = (j - 1) mod n.
Proof.
  intros H. destruct (decide (j = 0)) as [->|Hn].
  - apply Z.mod_unique with (q := -1); lia.
  - symmetry. apply Z.mod_small. lia.
Qed.

Lemma index_range {F : Type} (params : t_param F) row col :
  0 <= row < ny params -> 0 <= col < nx params ->
  0 <= index params row col < nx params * ny params.
Proof. unfold index. intros Hr Hc. nia. Qed.

Lemma index_inj {F : Type} (params : t_param F) r c r' c' :
  0 <= c < nx params -> 0 <= c' < nx params ->
  index params r c = index params r' c' -> r = r' /\ c = c'.
Proof.
  unfold index. intros Hc Hc' He.
  assert (r = r') as ->.
  { destruct (Z.lt_trichotomy r r') as [H|[H|H]]; [exfalso|exact H|exfalso].
    - assert (nx params <= (r' - r) * nx params) by nia. lia.
    - assert (nx params <= (r - r') * nx params) by nia. lia. }
  split; [reflexivity | lia].
Qed.

Section Streaming.

Context {F : Type} {AF : Arith F}.
Variable params : t_param F.
Variable cells : t_speed F.

Hypothesis nx_pos : 0 < nx params.
Hypothesis ny_pos : 0 < ny params.
Hypothesis cells_wf : wf (nx params * ny params) cells.

(** The nine values [gather] reads, written with the neighbour
    expressions of the source. *)
Definition gather_at (jj ii : Z) : cell9 F :=
  let y_n := Z.rem (jj + 1) (ny params) in
  let x_e := Z.rem (ii + 1) (nx params) in
  let y_s := if decide (jj = 0) then jj + ny params - 1 else jj - 1 in
  let x_w := if decide (ii = 0) then ii + nx params - 1 else ii - 1 in
  (peek cells 0 (ii + jj * nx params),
   peek cells 1 (x_w + jj * nx params),
   peek cells 2 (ii + y_s * nx params),
   peek cells 3 (x_e + jj * nx params),
   peek cells 4 (ii + y_n * nx params),
   peek cells 5 (x_w + y_s * nx params),
   peek cells 6 (x_e + y_s * nx params),
   peek cells 7 (x_e + y_n * nx params),
   peek cells 8 (x_w + y_n * nx params)).

Lemma load_cell k row col :
  (k < NSPEEDS)%nat -> 0 <= row < ny params -> 0 <= col < nx params ->
  load cells k (col + row * nx params) =
  Some (peek cells k (col + row * nx params)).
Proof.
  intros Hk Hr Hc. apply (load_wf (nx params * ny params)); auto.
  apply (index_range params); assumption.
Qed.

Lemma gather_total jj ii :
  0 <= jj < ny params -> 0 <= ii < nx params ->
  gather params cells jj ii = Some (gather_at jj ii).
Proof.
  intros Hj Hi. unfold gather, gather_at.
  assert (Hn : 0 <= Z.rem (jj + 1) (ny params) < ny params).
  { rewrite wrap_next by lia. apply Z.mod_pos_bound. lia. }
  assert (He : 0 <= Z.rem (ii + 1) (nx params) < nx params).
  { rewrite wrap_next by lia. apply Z.mod_pos_bound. lia. }
  assert (Hs : 0 <= (if decide (jj = 0) then jj + ny params - 1 else jj - 1)
               < ny params).
  { rewrite wrap_prev by lia. apply Z.mod_pos_bound. lia. }
  assert (Hw : 0 <= (if decide (ii = 0) then ii + nx params - 1 else ii - 1)
               < nx params).
  { rewrite wrap_prev by lia. apply Z.mod_pos_bound. lia. }
  cbv zeta.
  rewrite !load_cell by (assumption || (unfold NSPEEDS; lia)).
  reflexivity.
Qed.

Lemma nth9_gather_at k jj ii :
  (k < NSPEEDS)%nat -> 0 <= jj < ny params -> 0 <= ii < nx params ->
  nth9 (gather_at jj ii) k =
  peek cells k (index params ((jj - cy k) mod ny params)
                             ((ii - cx k) mod nx params)).
Proof.
  intros Hk Hj Hi. unfold NSPEEDS in Hk. unfold gather_at, index.
  rewrite (wrap_next (ny params)), (wrap_next (nx params)) by lia.
  rewrite (wrap_prev (ny params)), (wrap_prev (nx params)) by lia.
  assert (Ej : jj = (jj - 0) mod ny params)
    by (rewrite Z.sub_0_r, Z.mod_small; lia).
  assert (Ei : ii = (ii - 0) mod nx params)
    by (rewrite Z.sub_0_r, Z.mod_small; lia).
  do 9 (destruct k as [|k];
        [cbn [nth9 cx cy nth];
         rewrite <- ?Ej, <- ?Ei, ?Z.sub_opp_r; reflexivity|]).
  lia.
Qed.

End Streaming.

(** ** The kernel, cell by cell *)

Definition obstacle_at (obstacles : list Z) (i : Z) : Z :=
  default 0 (load_int obstacles i).

Lemma load_int_total (obstacles : list Z) i :
  0 <= i < Z.of_nat (length obstacles) ->
  load_int obstacles i = Some (obstacle_at obstacles i).
Proof.
  intros Hi. unfold obstacle_at, load_int. rewrite decide_True by lia.
  destruct (lookup_lt_is_Some_2 obstacles (Z.to_nat i) ltac:(lia)) as [o ->].
  reflexivity.
Qed.

Section Kernel.

Context {F : Type} {AF : Arith F}.
Variable params : t_param F.
Variable cells : t_speed F.
Variable obstacles : list Z.

Hypothesis nx_pos : 0 < nx params.
Hypothesis ny_pos : 0 < ny params.
Hypothesis cells_wf : wf (nx params * ny params) cells.
Hypothesis obstacles_len :
  Z.of_nat (length obstacles) = nx params * ny params.

(** What [propagate] writes for the cell [(jj, ii)] ... *)
Definition out_at (jj ii : Z) : list F :=
  if decide (obstacle_at obstacles (index params jj ii) ≠ 0)
  then rebound_out (gather_at params cells jj ii)
  else collide_out params (gather_at params cells jj ii).

(** ... what it adds to [tot_u] ... *)
Definition u_at (jj ii : Z) : F :=
  if decide (obstacle_at obstacles (index params jj ii) ≠ 0)
  then of_int 0
  else speed_of (gather_at params cells jj ii).

(** ... and to [tot_cells]. *)
Definition n_at (jj ii : Z) : Z :=
  if decide (obstacle_at obstacles (index params jj ii) ≠ 0) then 0 else 1.

Lemma length_out_at jj ii : length (out_at jj ii) = NSPEEDS.
Proof.
  unfold out_at. destruct (gather_at params cells jj ii) as [[[[[[[[? ?] ?] ?] ?] ?] ?] ?] ?].
  destruct (decide _); reflexivity.
Qed.

Lemma propagate_cell_spec jj ii tmp u n :
  0 <= jj < ny params -> 0 <= ii < nx params ->
  wf (nx params * ny params) tmp ->
  exists tmp',
    propagate_cell params cells obstacles jj ii (tmp, u, n) =
      Some (tmp', fadd u (u_at jj ii), n + n_at jj ii) /\
    wf (nx params * ny params) tmp' /\
    forall k i, load tmp' k i =
      if decide (i = index params jj ii /\ (k < NSPEEDS)%nat)
      then out_at jj ii !! k else load tmp k i.
Proof.
  intros Hj Hi Hwf. unfold propagate_cell.
  rewrite (gather_total params cells nx_pos ny_pos cells_wf) by assumption.
  pose proof (index_range params jj ii Hj Hi) as Hr. unfold index in Hr.
  rewrite load_int_total by lia. cbn [mbind option_bind].
  fold (index params jj ii).
  destruct (store_from_wf (nx params * ny params) (out_at jj ii) 0
              tmp (index params jj ii) Hwf) as (tmp' & E & W & L).
  { rewrite length_out_at. lia. }
  { unfold index. lia. }
  unfold out_at in E at 1. rewrite E. cbn [mbind option_bind].
  exists tmp'. split; [reflexivity|]. split; [exact W|].
  intros k i. rewrite L, length_out_at, Nat.sub_0_r.
  destruct (decide (i = index params jj ii)) as [->|Hne].
  - destruct (decide (k < NSPEEDS)%nat).
    + rewrite !decide_True by (split; [reflexivity | lia]). reflexivity.
    + rewrite !decide_False by lia. reflexivity.
  - rewrite !decide_False by tauto. reflexivity.
Qed.

(** The sums accumulated in [tot_u] and [tot_cells] by the two loops,
    in the order of the loops. *)
Definition tot_u_rows (rows : nat) : F :=
  fold_upto rows (fun jj a =>
    fold_upto (Z.to_nat (nx params)) (fun ii a => fadd a (u_at jj ii)) a)
    (of_int 0).

Definition tot_cells_rows (rows : nat) : Z :=
  fold_upto rows (fun jj a =>
    fold_upto (Z.to_nat (nx params)) (fun ii a => a + n_at jj ii) a) 0.

Lemma propagate_row jj tmp u n :
  0 <= jj < ny params ->
  wf (nx params * ny params) tmp ->
  exists tmp',
    for_loop (Z.to_nat (nx params)) 0
      (fun ii st => propagate_cell params cells obstacles jj ii st)
      (tmp, u, n) =
    Some (tmp',
          fold_upto (Z.to_nat (nx params)) (fun ii a => fadd a (u_at jj ii)) u,
          fold_upto (Z.to_nat (nx params)) (fun ii a => a + n_at jj ii) n) /\
    wf (nx params * ny params) tmp' /\
    forall k i, load tmp' k i =
      if decide ((k < NSPEEDS)%nat /\
                 index params jj 0 <= i < index params jj (nx params))
      then out_at jj (i - jj * nx params) !! k else load tmp k i.
Proof.
  intros Hj Hwf.
  destruct (for_loop_inv
    (fun c (st : (t_speed F) * F * Z) =>
       st.1.2 = fold_upto c (fun ii a => fadd a (u_at jj ii)) u /\
       st.2 = fold_upto c (fun ii a => a + n_at jj ii) n /\
       wf (nx params * ny params) st.1.1 /\
       forall k i, load st.1.1 k i =
         if decide ((k < NSPEEDS)%nat /\
                    index params jj 0 <= i < index params jj (Z.of_nat c))
         then out_at jj (i - jj * nx params) !! k else load tmp k i)
    (fun ii st => propagate_cell params cells obstacles jj ii st)
    (Z.to_nat (nx params)) 0 (tmp, u, n)) as ([[tmp' u'] n'] & E & Hu & Hn & W & L).
  - cbn. repeat split; try apply Hwf.
    intros k i. rewrite decide_False; [reflexivity|]. unfold index. lia.
  - intros c [[t a] m] Hc (Hu & Hn & W & L). cbn in Hu, Hn, W, L. subst a m.
    rewrite Z.add_0_l.
    destruct (propagate_cell_spec jj (Z.of_nat c) t
                (fold_upto c (fun ii a => fadd a (u_at jj ii)) u)
                (fold_upto c (fun ii a => a + n_at jj ii) n) Hj ltac:(lia) W)
      as (t' & E' & W' & L').
    eexists. split; [exact E'|]. cbn. repeat split; try apply W'.
    intros k i. rewrite L', L. unfold index.
    destruct (decide (i = Z.of_nat c + jj * nx params)) as [->|Hne].
    + destruct (decide (k < NSPEEDS)%nat).
      * rewrite decide_True by tauto. rewrite decide_True by lia.
        f_equal. f_equal. lia.
      * rewrite !decide_False by tauto. reflexivity.
    + rewrite decide_False by tauto.
      destruct (decide (k < NSPEEDS)%nat).
      * destruct (decide (0 + jj * nx params <= i < Z.of_nat c + jj * nx params)).
        -- rewrite !decide_True by lia. reflexivity.
        -- rewrite !decide_False by lia. reflexivity.
      * rewrite !decide_False by tauto. reflexivity.
  - cbn in Hu, Hn, W, L. subst u' n'. exists tmp'.
    split; [exact E|]. split; [exact W|].
    intros k i. rewrite L, Z2Nat.id by lia. reflexivity.
Qed.

Lemma propagate_spec tmp :
  wf (nx params * ny params) tmp ->
  exists tmp',
    propagate params cells tmp obstacles =
      Some (tmp', fdiv (tot_u_rows (Z.to_nat (ny params)))
                       (of_int (tot_cells_rows (Z.to_nat (ny params))))) /\
    wf (nx params * ny params) tmp' /\
    forall jj ii k,
      0 <= jj < ny params -> 0 <= ii < nx params -> (k < NSPEEDS)%nat ->
      load tmp' k (index params jj ii) = out_at jj ii !! k.
Proof.
  intros Hwf. unfold propagate.
  destruct (for_loop_inv
    (fun r (st : (t_speed F) * F * Z) =>
       st.1.2 = tot_u_rows r /\ st.2 = tot_cells_rows r /\
       wf (nx params * ny params) st.1.1 /\
       forall jj ii k,
         0 <= jj < Z.of_nat r -> 0 <= ii < nx params -> (k < NSPEEDS)%nat ->
         load st.1.1 k (index params jj ii) = out_at jj ii !! k)
    (fun jj st =>
       for_loop (Z.to_nat (nx params)) 0
         (fun ii st => propagate_cell params cells obstacles jj ii st) st)
    (Z.to_nat (ny params)) 0 (tmp, of_int 0, 0))
    as ([[tmp' u'] n'] & E & Hu & Hn & W & L).
  - cbn. repeat split; try apply Hwf. intros; lia.
  - intros r [[t a] m] Hr (Hu & Hn & W & L). cbn in Hu, Hn, W, L. subst a m.
    rewrite Z.add_0_l.
    destruct (propagate_row (Z.of_nat r) t (tot_u_rows r) (tot_cells_rows r)
                ltac:(lia) W) as (t' & E' & W' & L').
    eexists. split; [exact E'|]. cbn. repeat split; try apply W'.
    intros jj ii k Hj Hi Hk. rewrite L'.
    destruct (decide (jj = Z.of_nat r)) as [->|Hne].
    + rewrite decide_True by (unfold index; lia).
      f_equal. f_equal. unfold index. lia.
    + assert (index params jj ii < index params (Z.of_nat r) 0).
      { unfold index.
        assert ((jj + 1) * nx params <= Z.of_nat r * nx params) by nia. lia. }
      rewrite decide_False by lia. apply L; lia.
  - cbn in Hu, Hn, W, L. subst u' n'. rewrite E. cbn.
    eexists. split; [reflexivity|]. split; [exact W|].
    intros jj ii k Hj Hi Hk. apply L; lia.
Qed.

End Kernel.

(** ** accelerate_flow, cell by cell *)

Section Forcing.

Context {F : Type} {AF : Arith F}.
Variable params : t_param F.
Variable cells : t_speed F.
Variable obstacles : list Z.

Hypothesis nx_pos : 0 < nx params.
Hypothesis ny_two : 2 <= ny params.
Hypothesis cells_wf : wf (nx params * ny params) cells.
Hypothesis obstacles_len :
  Z.of_nat (length obstacles) = nx params * ny params.

Definition forcing_w1 : F :=
  fdiv (fmul (density params) (accel params)) (of_int 9).
Definition forcing_w2 : F :=
  fdiv (fmul (density params) (accel params)) (of_int 36).

(** The guard of [accelerate_flow] at the cell of linear index [i]. *)
Definition forcing_applies (i : Z) : bool :=
  bool_decide (obstacle_at obstacles i = 0)
  && fgt (fsub (peek cells 3 i) forcing_w1) (of_int 0)
  && fgt (fsub (peek cells 6 i) forcing_w2) (of_int 0)
  && fgt (fsub (peek cells 7 i) forcing_w2) (of_int 0).

(** The six assignments of [accelerate_flow]. *)
Definition forced_value (k : nat) (i : Z) : F :=
  match k with
  | 1 => fadd (peek cells 1 i) forcing_w1
  | 5 => fadd (peek cells 5 i) forcing_w2
  | 8 => fadd (peek cells 8 i) forcing_w2
  | 3 => fsub (peek cells 3 i) forcing_w1
  | 6 => fsub (peek cells 6 i) forcing_w2
  | 7 => fsub (peek cells 7 i) forcing_w2
  | _ => peek cells k i
  end%nat.

(** The state after [accelerate_flow]: only the row [ny - 2] is
    touched, and there only the cells that pass the guard. *)
Definition after_forcing (k : nat) (i : Z) : F :=
  if decide (index params (ny params - 2) 0 <= i
             < index params (ny params - 2) (nx params))
  then if forcing_applies i then forced_value k i else peek cells k i
  else peek cells k i.

Lemma modify_wf n (c : t_speed F) k i (f : F -> F) :
  wf n c -> (k < NSPEEDS)%nat -> 0 <= i < n ->
  exists c', (x ← load c k i; store c k i (f x)) = Some c' /\ wf n c' /\
    forall k' i', load c' k' i' =
      if decide (k' = k /\ i' = i) then Some (f (peek c k i))
      else load c k' i'.
Proof.
  intros W Hk Hi. rewrite (load_wf n) by assumption. cbn [mbind option_bind].
  apply store_wf; assumption.
Qed.

Lemma accelerate_cell ii (c : t_speed F) :
  0 <= ii < nx params ->
  wf (nx params * ny params) c ->
  (forall k, peek c k (index params (ny params - 2) ii) =
             peek cells k (index params (ny params - 2) ii)) ->
  let i := index params (ny params - 2) ii in
  exists c',
    (o ← load_int obstacles i;
     if decide (o = 0) then
       s3 ← load c 3 i;
       if fgt (fsub s3 forcing_w1) (of_int 0) then
         s6 ← load c 6 i;
         if fgt (fsub s6 forcing_w2) (of_int 0) then
           s7 ← load c 7 i;
           if fgt (fsub s7 forcing_w2) (of_int 0) then
             c ← add_to c 1 i forcing_w1;
             c ← add_to c 5 i forcing_w2;
             c ← add_to c 8 i forcing_w2;
             c ← sub_from c 3 i forcing_w1;
             c ← sub_from c 6 i forcing_w2;
             sub_from c 7 i forcing_w2
           else Some c
         else Some c
       else Some c
     else Some c) = Some c' /\
    wf (nx params * ny params) c' /\
    forall k' i', load c' k' i' =
      if decide (i' = i /\ (k' < NSPEEDS)%nat)
      then Some (after_forcing k' i) else load c k' i'.
Proof.
  intros Hi W Hsame i.
  pose proof (index_range params (ny params - 2) ii ltac:(lia) Hi) as Hr.
  fold i in Hr, Hsame.
  assert (Hrow : index params (ny params - 2) 0 <= i
                 < index params (ny params - 2) (nx params)).
  { unfold i, index. lia. }
  assert (Hkeep : forall c0 : t_speed F,
            wf (nx params * ny params) c0 ->
            (forall k, peek c0 k i = peek cells k i) ->
            forcing_applies i = false ->
            forall k' i', load c0 k' i' =
              if decide (i' = i /\ (k' < NSPEEDS)%nat)
              then Some (after_forcing k' i) else load c0 k' i').
  { intros c0 W0 S0 Hno k' i'. destruct (decide _) as [[-> Hk]|]; [|reflexivity].
    rewrite (load_wf _ _ _ _ W0 Hk Hr). unfold after_forcing.
    rewrite decide_True by exact Hrow. rewrite Hno, S0. reflexivity. }
  rewrite load_int_total by lia. cbn [mbind option_bind].
  unfold forcing_applies in Hkeep.
  destruct (decide (obstacle_at obstacles i = 0)) as [Ho|Ho].
  2:{ exists c. split; [reflexivity|]. split; [exact W|].
      apply Hkeep; auto. rewrite bool_decide_eq_false_2 by exact Ho. reflexivity. }
  rewrite (bool_decide_eq_true_2 _ Ho) in Hkeep. cbn [andb] in Hkeep.
  rewrite !(load_wf _ _ _ _ W) by (exact Hr || (unfold NSPEEDS; lia)).
  cbn [mbind option_bind]. rewrite !Hsame.
  destruct (fgt (fsub (peek cells 3 i) forcing_w1) (of_int 0)) eqn:G3.
  2:{ exists c. split; [reflexivity|]. split; [exact W|]. apply Hkeep; auto. }
  destruct (fgt (fsub (peek cells 6 i) forcing_w2) (of_int 0)) eqn:G6.
  2:{ exists c. split; [reflexivity|]. split; [exact W|]. apply Hkeep; auto. }
  destruct (fgt (fsub (peek cells 7 i) forcing_w2) (of_int 0)) eqn:G7.
  2:{ exists c. split; [reflexivity|]. split; [exact W|]. apply Hkeep; auto. }
  clear Hkeep. unfold add_to, sub_from.
  destruct (modify_wf _ c 1 i (fun x => fadd x forcing_w1) W
              ltac:(unfold NSPEEDS; lia) Hr) as (c1 & E1 & W1 & L1).
  rewrite E1. cbn [mbind option_bind].
  destruct (modify_wf _ c1 5 i (fun x => fadd x forcing_w2) W1
              ltac:(unfold NSPEEDS; lia) Hr) as (c2 & E2 & W2 & L2).
  rewrite E2. cbn [mbind option_bind].
  destruct (modify_wf _ c2 8 i (fun x => fadd x forcing_w2) W2
              ltac:(unfold NSPEEDS; lia) Hr) as (c3 & E3 & W3 & L3).
  rewrite E3. cbn [mbind option_bind].
  destruct (modify_wf _ c3 3 i (fun x => fsub x forcing_w1) W3
              ltac:(unfold NSPEEDS; lia) Hr) as (c4 & E4 & W4 & L4).
  rewrite E4. cbn [mbind option_bind].
  destruct (modify_wf _ c4 6 i (fun x => fsub x forcing_w2) W4
              ltac:(unfold NSPEEDS; lia) Hr) as (c5 & E5 & W5 & L5).
  rewrite E5. cbn [mbind option_bind].
  destruct (modify_wf _ c5 7 i (fun x => fsub x forcing_w2) W5
              ltac:(unfold NSPEEDS; lia) Hr) as (c6 & E6 & W6 & L6).
  exists c6. split; [exact E6|]. split; [exact W6|].
  assert (P5 : peek c2 8 i = peek cells 8 i).
  { unfold peek at 1. rewrite L2, L1, !decide_False by lia.
    fold (peek c 8 i). apply Hsame. }
  assert (P3 : peek c3 3 i = peek cells 3 i).
  { unfold peek at 1. rewrite L3, L2, L1, !decide_False by lia.
    fold (peek c 3 i). apply Hsame. }
  assert (P6 : peek c4 6 i = peek cells 6 i).
  { unfold peek at 1. rewrite L4, L3, L2, L1, !decide_False by lia.
    fold (peek c 6 i). apply Hsame. }
  assert (P7 : peek c5 7 i = peek cells 7 i).
  { unfold peek at 1. rewrite L5, L4, L3, L2, L1, !decide_False by lia.
    fold (peek c 7 i). apply Hsame. }
  assert (P1 : peek c1 5 i = peek cells 5 i).
  { unfold peek at 1. rewrite L1, !decide_False by lia.
    fold (peek c 5 i). apply Hsame. }
  intros k' i'. rewrite L6, L5, L4, L3, L2, L1.
  rewrite P1, P5, P3, P6, P7, (Hsame 1%nat).
  destruct (decide (i' = i)) as [->|Hne].
  2:{ rewrite !decide_False by tauto. reflexivity. }
  assert (Haf : forall k, after_forcing k i = forced_value k i).
  { intros k. unfold after_forcing. rewrite decide_True by exact Hrow.
    unfold forcing_applies. rewrite (bool_decide_eq_true_2 _ Ho), G3, G6, G7.
    reflexivity. }
  rewrite Haf.
  destruct (decide (k' < NSPEEDS)%nat) as [Hk|Hk].
  - unfold NSPEEDS in Hk.
    do 9 (destruct k' as [|k'];
          [cbn [forced_value];
           repeat ((rewrite decide_True
                      by (split; (reflexivity || (unfold NSPEEDS; lia))))
                   || (rewrite decide_False by (intros [? ?]; discriminate)));
           rewrite ?(load_wf _ _ _ _ W) by (exact Hr || (unfold NSPEEDS; lia));
           rewrite ?Hsame; reflexivity|]).
    lia.
  - unfold NSPEEDS in Hk.
    repeat (rewrite decide_False by (intros [? ?]; lia)).
    rewrite decide_False by (unfold NSPEEDS; intros [? ?]; lia).
    reflexivity.
Qed.

Lemma accelerate_flow_spec :
  exists cells',
    accelerate_flow params cells obstacles = Some cells' /\
    wf (nx params * ny params) cells' /\
    forall k i, (k < NSPEEDS)%nat -> 0 <= i < nx params * ny params ->
      load cells' k i = Some (after_forcing k i).
Proof.
  unfold accelerate_flow.
  destruct (for_loop_inv
    (fun c (t : t_speed F) =>
       wf (nx params * ny params) t /\
       forall k i, load t k i =
         if decide ((k < NSPEEDS)%nat /\
                    index params (ny params - 2) 0 <= i
                    < index params (ny params - 2) (Z.of_nat c))
         then Some (after_forcing k i) else load cells k i)
    (fun ii (c : t_speed F) =>
       let i := ii + (ny params - 2) * nx params in
       o ← load_int obstacles i;
       if decide (o = 0) then
         s3 ← load c 3 i;
         if fgt (fsub s3 forcing_w1) (of_int 0) then
           s6 ← load c 6 i;
           if fgt (fsub s6 forcing_w2) (of_int 0) then
             s7 ← load c 7 i;
             if fgt (fsub s7 forcing_w2) (of_int 0) then
               c ← add_to c 1 i forcing_w1;
               c ← add_to c 5 i forcing_w2;
               c ← add_to c 8 i forcing_w2;
               c ← sub_from c 3 i forcing_w1;
               c ← sub_from c 6 i forcing_w2;
               sub_from c 7 i forcing_w2
             else Some c
           else Some c
         else Some c
       else Some c)
    (Z.to_nat (nx params)) 0 cells) as (cells' & E & W & L).
  - split; [exact cells_wf|]. intros k i.
    rewrite decide_False; [reflexivity|]. unfold index. lia.
  - intros c t Hc [W L]. rewrite Z.add_0_l.
    destruct (accelerate_cell (Z.of_nat c) t ltac:(lia) W) as (t' & E' & W' & L').
    { intros k. unfold peek. rewrite L.
      rewrite decide_False; [reflexivity|]. unfold index. lia. }
    exists t'. split; [exact E'|]. split; [exact W'|].
    intros k i. rewrite L', L. unfold index.
    destruct (decide (i = Z.of_nat c + (ny params - 2) * nx params)) as [->|Hne].
    + destruct (decide (k < NSPEEDS)%nat).
      * rewrite !decide_True by lia. reflexivity.
      * rewrite !decide_False by tauto. reflexivity.
    + rewrite decide_False by tauto.
      destruct (decide (k < NSPEEDS)%nat).
      * destruct (decide (0 + (ny params - 2) * nx params <= i
                          < Z.of_nat c + (ny params - 2) * nx params)).
        -- rewrite !decide_True by lia. reflexivity.
        -- rewrite !decide_False by lia. reflexivity.
      * rewrite !decide_False by tauto. reflexivity.
  - exists cells'. split; [exact E|]. split; [exact W|].
    intros k i Hk Hi. rewrite L, Z2Nat.id by lia.
    destruct (decide _) as [_|Hout]; [reflexivity|].
    rewrite (load_wf _ _ _ _ cells_wf Hk Hi). unfold after_forcing.
    rewrite decide_False by tauto. reflexivity.
Qed.

End Forcing.

(** ** Concrete grids *)

Module Demo.

(** A 3x3 grid in binary32 whose speed [k] holds [10*k + i] at the
    cell of linear index [i]. *)
Definition params : t_param F32.float :=
  {| nx := 3; ny := 3; maxIters := 2; reynolds_dim := 1;
     density := of_int 1; accel := of_int 0; omega := of_int 1 |}.

Definition cells : t_speed F32.float :=
  map (fun k => map (fun i => of_int (10 * k + i)) (seqZ 0 9)) (seqZ 0 9).

Definition blank : t_speed F32.float :=
  replicate 9 (replicate 9 (of_int 0)).

(** the centre cell is an obstacle *)
Definition obstacles : list Z := [0; 0; 0; 0; 1; 0; 0; 0; 0].

Lemma grid_wf : wf 9 cells.
Proof. split; [reflexivity | repeat constructor]. Qed.

Lemma blank_wf : wf 9 blank.
Proof. split; [reflexivity | repeat constructor]. Qed.

End Demo.

(** ** Streaming *)

(** C1: on a grid with [nx, ny > 0], for every cell [(jj, ii)] and every
    speed [k] in 0..8, the value gathered by the streaming phase of
    [propagate] is the value of speed [k] of the current buffer at the
    cell displaced by minus the velocity of [k], both coordinates taken
    modulo [(nx, ny)]; speed 1 (east) comes from the cell one column to
    the west with column wrap-around, speed 0 from the cell itself. *)
Theorem gather_reads_upstream {F : Type} {AF : Arith F}
    (params : t_param F) (cells : t_speed F) (jj ii : Z) :
  0 < nx params -> 0 < ny params ->
  wf (nx params * ny params) cells ->
  0 <= jj < ny params -> 0 <= ii < nx params ->
  exists g,
    gather params cells jj ii = Some g /\
    (forall k, (k < NSPEEDS)%nat ->
       load cells k (index params ((jj - cy k) mod ny params)
                                  ((ii - cx k) mod nx params))
       = Some (nth9 g k)) /\
    load cells 1 (index params jj ((ii - 1) mod nx params))
      = Some (nth9 g 1) /\
    load cells 0 (index params jj ii) = Some (nth9 g 0).
Proof.
  intros Hx Hy W Hj Hi. exists (gather_at params cells jj ii).
  assert (Hall : forall k, (k < NSPEEDS)%nat ->
            load cells k (index params ((jj - cy k) mod ny params)
                                       ((ii - cx k) mod nx params))
            = Some (nth9 (gather_at params cells jj ii) k)).
  { intros k Hk. rewrite nth9_gather_at by assumption.
    apply (load_wf (nx params * ny params)); [exact W | exact Hk |].
    apply index_range; apply Z.mod_pos_bound; assumption. }
  split; [apply gather_total; assumption|].
  split; [exact Hall|]. split.
  - specialize (Hall 1%nat ltac:(unfold NSPEEDS; lia)).
    cbn [cx cy nth] in Hall.
    rewrite Z.sub_0_r, (Z.mod_small jj) in Hall by lia. exact Hall.
  - specialize (Hall 0%nat ltac:(unfold NSPEEDS; lia)).
    cbn [cx cy nth] in Hall.
    rewrite !Z.sub_0_r, (Z.mod_small jj), (Z.mod_small ii) in Hall by lia.
    exact Hall.
Qed.

Lemma gather_reads_upstream_witness :
  exists g,
    gather Demo.params Demo.cells 0 0 = Some g /\
    (forall k, (k < NSPEEDS)%nat ->
       load Demo.cells k (index Demo.params ((0 - cy k) mod 3)
                                            ((0 - cx k) mod 3))
       = Some (nth9 g k)) /\
    load Demo.cells 1 (index Demo.params 0 ((0 - 1) mod 3))
      = Some (nth9 g 1) /\
    load Demo.cells 0 (index Demo.params 0 0) = Some (nth9 g 0).
Proof.
  apply (gather_reads_upstream Demo.params Demo.cells 0 0);
    [reflexivity | reflexivity | exact Demo.grid_wf | simpl; lia | simpl; lia].
Defined.

(** At the corner cell [(0, 0)] of the 3x3 grid the east speed comes
    from column 2 of row 0 and the north-east speed from the opposite
    corner. *)
Example gather_corner :
  gather Demo.params Demo.cells 0 0 =
  Some (of_int 0, of_int 12, of_int 26, of_int 31, of_int 43,
        of_int 58, of_int 67, of_int 74, of_int 85).
Proof. vm_compute. reflexivity. Qed.

(** C8, as the code has it: for [ny = 3] and any [nx > 0], the value
    gathered into speed 4 (south) of a cell of row 0 comes from the same
    column of row 1, the cell the south-moving density leaves; it is
    speed 2 (north) whose value comes from the same column of row
    [ny - 1], the periodic image of row -1. *)
Theorem gather_row0_wraps {F : Type} {AF : Arith F}
    (params : t_param F) (cells : t_speed F) (ii : Z) :
  ny params = 3 -> 0 < nx params ->
  wf (nx params * ny params) cells ->
  0 <= ii < nx params ->
  exists g,
    gather params cells 0 ii = Some g /\
    load cells 4 (index params 1 ii) = Some (nth9 g 4) /\
    load cells 2 (index params (ny params - 1) ii) = Some (nth9 g 2).
Proof.
  intros Hy Hx W Hi.
  destruct (gather_reads_upstream params cells 0 ii)
    as (g & Eg & Hall & _); try assumption; try lia.
  exists g. split; [exact Eg|]. split.
  - specialize (Hall 4%nat ltac:(unfold NSPEEDS; lia)).
    cbn [cx cy nth] in Hall. rewrite Hy in Hall.
    rewrite Z.sub_0_r, (Z.mod_small ii) in Hall by lia. exact Hall.
  - specialize (Hall 2%nat ltac:(unfold NSPEEDS; lia)).
    cbn [cx cy nth] in Hall. rewrite Hy in *.
    rewrite Z.sub_0_r, (Z.mod_small ii) in Hall by lia. exact Hall.
Qed.

Lemma gather_row0_wraps_witness :
  exists g,
    gather Demo.params Demo.cells 0 1 = Some g /\
    load Demo.cells 4 (index Demo.params 1 1) = Some (nth9 g 4) /\
    load Demo.cells 2 (index Demo.params (ny Demo.params - 1) 1)
      = Some (nth9 g 2).
Proof.
  apply (gather_row0_wraps Demo.params Demo.cells 1);
    [reflexivity | reflexivity | exact Demo.grid_wf | simpl; lia].
Defined.

(** C8 as stated fails: on the 3x3 grid the speed-4 value gathered at
    row 0, column 1 is the one planted at row 1 ([10*4 + 4]), not the
    one at row [ny - 1 = 2] ([10*4 + 7]). *)
Lemma south_not_from_last_row :
  exists g,
    gather Demo.params Demo.cells 0 1 = Some g /\
    load Demo.cells 4 (index Demo.params (ny Demo.params - 1) 1)
      = Some (of_int 47) /\
    nth9 g 4 = of_int 44 /\
    Some (nth9 g 4)
      <> load Demo.cells 4 (index Demo.params (ny Demo.params - 1) 1).
Proof.
  eexists. split; [vm_compute; reflexivity|].
  split; [vm_compute; reflexivity|].
  split; [vm_compute; reflexivity|].
  vm_compute. discriminate.
Qed.

(** ** Bounce-back *)

Lemma fold_upto_fixed {A : Type} (n : nat) (g : Z -> A -> A) (a : A) :
  (forall i, 0 <= i < Z.of_nat n -> g i a = a) -> fold_upto n g a = a.
Proof.
  induction n as [|n IH]; intros Hg; [reflexivity|].
  simpl. rewrite IH by (intros; apply Hg; lia). apply Hg. lia.
Qed.

Lemma rebound_out_opposite {F : Type} {AF : Arith F} (g : cell9 F) k :
  (k < NSPEEDS)%nat -> rebound_out g !! k = Some (nth9 g (opposite k)).
Proof.
  intros Hk. unfold NSPEEDS in Hk.
  destruct g as [[[[[[[[s0 s1] s2] s3] s4] s5] s6] s7] s8].
  do 9 (destruct k as [|k]; [reflexivity|]). lia.
Qed.

(** C2: in a cell marked as an obstacle, the speeds [propagate] writes
    to the next buffer are the gathered values of the opposite
    directions (0-0, 1-3, 2-4, 5-7, 6-8), with no relaxation; the loop
    body adds 0 to [tot_u] and 0 to [tot_cells] for that cell, and these
    two sums give the returned average. *)
Theorem obstacle_cell_bounces_back {F : Type} {AF : Arith F}
    (params : t_param F) (cells tmp_cells : t_speed F)
    (obstacles : list Z) (jj ii : Z) :
  0 < nx params -> 0 < ny params ->
  wf (nx params * ny params) cells ->
  wf (nx params * ny params) tmp_cells ->
  Z.of_nat (length obstacles) = nx params * ny params ->
  0 <= jj < ny params -> 0 <= ii < nx params ->
  obstacle_at obstacles (index params jj ii) ≠ 0 ->
  exists g tmp' av,
    gather params cells jj ii = Some g /\
    propagate params cells tmp_cells obstacles = Some (tmp', av) /\
    (forall k, (k < NSPEEDS)%nat ->
       load tmp' k (index params jj ii) = Some (nth9 g (opposite k))) /\
    [load tmp' 0 (index params jj ii); load tmp' 1 (index params jj ii);
     load tmp' 2 (index params jj ii); load tmp' 3 (index params jj ii);
     load tmp' 4 (index params jj ii); load tmp' 5 (index params jj ii);
     load tmp' 6 (index params jj ii); load tmp' 7 (index params jj ii);
     load tmp' 8 (index params jj ii)]
    = [Some (nth9 g 0); Some (nth9 g 3); Some (nth9 g 4); Some (nth9 g 1);
       Some (nth9 g 2); Some (nth9 g 7); Some (nth9 g 8); Some (nth9 g 5);
       Some (nth9 g 6)] /\
    (forall t u n, wf (nx params * ny params) t ->
       exists t',
         propagate_cell params cells obstacles jj ii (t, u, n)
         = Some (t', fadd u (of_int 0), n + 0)) /\
    av = fdiv (tot_u_rows params cells obstacles (Z.to_nat (ny params)))
              (of_int (tot_cells_rows params obstacles (Z.to_nat (ny params)))) /\
    u_at params cells obstacles jj ii = of_int 0 /\
    n_at params obstacles jj ii = 0.
Proof.
  intros Hx Hy W Wt Hlen Hj Hi Hobs.
  destruct (propagate_spec params cells obstacles Hx Hy W Hlen tmp_cells Wt)
    as (tmp' & E & W' & L).
  assert (Hout : forall k, (k < NSPEEDS)%nat ->
            load tmp' k (index params jj ii)
            = Some (nth9 (gather_at params cells jj ii) (opposite k))).
  { intros k Hk. rewrite L by assumption. unfold out_at.
    rewrite decide_True by exact Hobs. apply rebound_out_opposite, Hk. }
  assert (Hu : u_at params cells obstacles jj ii = of_int 0).
  { unfold u_at. rewrite decide_True by exact Hobs. reflexivity. }
  assert (Hn : n_at params obstacles jj ii = 0).
  { unfold n_at. rewrite decide_True by exact Hobs. reflexivity. }
  exists (gather_at params cells jj ii), tmp'. eexists.
  split; [apply gather_total; assumption|].
  split; [exact E|]. split; [exact Hout|]. split.
  { rewrite !Hout by (unfold NSPEEDS; lia). reflexivity. }
  split; [|auto].
  intros t u n Wt'.
  destruct (propagate_cell_spec params cells obstacles Hx Hy W Hlen
              jj ii t u n Hj Hi Wt') as (t' & E' & _).
  exists t'. rewrite E', Hu, Hn. reflexivity.
Qed.

Lemma obstacle_cell_bounces_back_witness :
  exists g tmp' av,
    gather Demo.params Demo.cells 1 1 = Some g /\
    propagate Demo.params Demo.cells Demo.blank Demo.obstacles
      = Some (tmp', av) /\
    (forall k, (k < NSPEEDS)%nat ->
       load tmp' k (index Demo.params 1 1) = Some (nth9 g (opposite k))) /\
    [load tmp' 0 (index Demo.params 1 1); load tmp' 1 (index Demo.params 1 1);
     load tmp' 2 (index Demo.params 1 1); load tmp' 3 (index Demo.params 1 1);
     load tmp' 4 (index Demo.params 1 1); load tmp' 5 (index Demo.params 1 1);
     load tmp' 6 (index Demo.params 1 1); load tmp' 7 (index Demo.params 1 1);
     load tmp' 8 (index Demo.params 1 1)]
    = [Some (nth9 g 0); Some (nth9 g 3); Some (nth9 g 4); Some (nth9 g 1);
       Some (nth9 g 2); Some (nth9 g 7); Some (nth9 g 8); Some (nth9 g 5);
       Some (nth9 g 6)] /\
    (forall t u n, wf (nx Demo.params * ny Demo.params) t ->
       exists t',
         propagate_cell Demo.params Demo.cells Demo.obstacles 1 1 (t, u, n)
         = Some (t', fadd u (of_int 0), n + 0)) /\
    av = fdiv (tot_u_rows Demo.params Demo.cells Demo.obstacles
                 (Z.to_nat (ny Demo.params)))
              (of_int (tot_cells_rows Demo.params Demo.obstacles
                         (Z.to_nat (ny Demo.params)))) /\
    u_at Demo.params Demo.cells Demo.obstacles 1 1 = of_int 0 /\
    n_at Demo.params Demo.obstacles 1 1 = 0.
Proof.
  apply (obstacle_cell_bounces_back Demo.params Demo.cells Demo.blank
           Demo.obstacles 1 1);
    [reflexivity | reflexivity | exact Demo.grid_wf | exact Demo.blank_wf
    | reflexivity | simpl; lia | simpl; lia | vm_compute; discriminate].
Defined.

(** The obstacle cell of the 3x3 grid after one [propagate]. *)
Example bounce_back_centre :
  (r ← propagate Demo.params Demo.cells Demo.blank Demo.obstacles;
   Some (map (fun k => load r.1 k 4) (seq 0 9)))
  = Some (map Some [of_int 4; of_int 35; of_int 47; of_int 13; of_int 21;
                    of_int 78; of_int 86; of_int 50; of_int 62]).
Proof. vm_compute. reflexivity. Qed.

(** ** The all-obstacle grid *)

(** C10: when every cell is an obstacle, [propagate] completes (all its
    accesses are in bounds) and, in binary32 arithmetic, returns the
    quotient of a zero sum by a zero count, which is NaN. *)
Theorem all_obstacles_average_is_nan
    (params : t_param F32.float) (cells tmp_cells : t_speed F32.float)
    (obstacles : list Z) :
  0 < nx params -> 0 < ny params ->
  wf (nx params * ny params) cells ->
  wf (nx params * ny params) tmp_cells ->
  Z.of_nat (length obstacles) = nx params * ny params ->
  (forall i, 0 <= i < nx params * ny params -> obstacle_at obstacles i ≠ 0) ->
  exists tmp',
    propagate params cells tmp_cells obstacles = Some (tmp', S754_nan) /\
    tot_cells_rows params obstacles (Z.to_nat (ny params)) = 0 /\
    wf (nx params * ny params) tmp'.
Proof.
  intros Hx Hy W Wt Hlen Hall.
  destruct (propagate_spec params cells obstacles Hx Hy W Hlen tmp_cells Wt)
    as (tmp' & E & W' & _).
  assert (Hu : tot_u_rows params cells obstacles (Z.to_nat (ny params))
               = S754_zero false).
  { unfold tot_u_rows. apply fold_upto_fixed. intros jj Hj.
    apply fold_upto_fixed. intros ii Hi. unfold u_at.
    rewrite decide_True by (apply Hall, index_range; lia). reflexivity. }
  assert (Hn : tot_cells_rows params obstacles (Z.to_nat (ny params)) = 0).
  { unfold tot_cells_rows. apply fold_upto_fixed. intros jj Hj.
    apply fold_upto_fixed. intros ii Hi. unfold n_at.
    rewrite decide_True by (apply Hall, index_range; lia). reflexivity. }
  exists tmp'. rewrite E, Hu, Hn. auto.
Qed.

Lemma all_obstacles_average_is_nan_witness :
  exists tmp',
    propagate Demo.params Demo.cells Demo.blank (replicate 9 1)
      = Some (tmp', S754_nan) /\
    tot_cells_rows Demo.params (replicate 9 1) (Z.to_nat (ny Demo.params)) = 0 /\
    wf (nx Demo.params * ny Demo.params) tmp'.
Proof.
  apply (all_obstacles_average_is_nan Demo.params Demo.cells Demo.blank
           (replicate 9 1));
    [reflexivity | reflexivity | exact Demo.grid_wf | exact Demo.blank_wf
    | reflexivity |].
  intros i Hi. change (nx Demo.params * ny Demo.params) with 9 in Hi.
  assert (Hc : i = 0 \/ i = 1 \/ i = 2 \/ i = 3 \/ i = 4 \/ i = 5 \/ i = 6
               \/ i = 7 \/ i = 8) by lia.
  destruct Hc as [->|[->|[->|[->|[->|[->|[->|[->| ->]]]]]]]];
    vm_compute; discriminate.
Defined.

(** ** One full timestep *)

Lemma wf_ext {F : Type} {AF : Arith F} n (c c' : t_speed F) :
  wf n c -> wf n c' ->
  (forall k i, (k < NSPEEDS)%nat -> 0 <= i < n -> load c k i = load c' k i) ->
  c = c'.
Proof.
  intros [Hl Hb] [Hl' Hb'] He. rewrite Forall_lookup in Hb, Hb'.
  apply list_eq. intros k.
  destruct (decide (k < NSPEEDS)%nat) as [Hk|Hk].
  - destruct (lookup_lt_is_Some_2 c k ltac:(lia)) as [b Eb].
    destruct (lookup_lt_is_Some_2 c' k ltac:(lia)) as [b' Eb'].
    rewrite Eb, Eb'. f_equal. apply list_eq. intros i.
    pose proof (Hb _ _ Eb) as Lb. pose proof (Hb' _ _ Eb') as Lb'.
    destruct (decide (i < length b)%nat) as [Hi|Hi].
    + specialize (He k (Z.of_nat i) Hk ltac:(lia)). unfold load in He.
      rewrite Eb, Eb' in He. cbn [mbind option_bind] in He.
      rewrite !decide_True, !Nat2Z.id in He by lia. exact He.
    + rewrite !lookup_ge_None_2 by lia. reflexivity.
  - rewrite !lookup_ge_None_2 by lia. reflexivity.
Qed.

(** On a valid grid with at least two rows, [timestep] runs without
    leaving its buffers. *)
Lemma timestep_spec {F : Type} {AF : Arith F}
    (params : t_param F) (cells tmp_cells : t_speed F) (obstacles : list Z) :
  0 < nx params -> 2 <= ny params ->
  wf (nx params * ny params) cells ->
  wf (nx params * ny params) tmp_cells ->
  Z.of_nat (length obstacles) = nx params * ny params ->
  exists cells' tmp',
    accelerate_flow params cells obstacles = Some cells' /\
    timestep params cells tmp_cells obstacles =
      Some (cells', tmp',
            fdiv (tot_u_rows params cells' obstacles (Z.to_nat (ny params)))
                 (of_int (tot_cells_rows params obstacles
                            (Z.to_nat (ny params))))) /\
    wf (nx params * ny params) cells' /\
    wf (nx params * ny params) tmp' /\
    (forall k i, (k < NSPEEDS)%nat -> 0 <= i < nx params * ny params ->
       load cells' k i = Some (after_forcing params cells obstacles k i)) /\
    (forall jj ii k,
       0 <= jj < ny params -> 0 <= ii < nx params -> (k < NSPEEDS)%nat ->
       load tmp' k (index params jj ii)
       = out_at params cells' obstacles jj ii !! k).
Proof.
  intros Hx Hy W Wt Hlen.
  destruct (accelerate_flow_spec params cells obstacles Hx Hy W Hlen)
    as (cells' & Ea & Wa & La).
  destruct (propagate_spec params cells' obstacles Hx ltac:(lia) Wa Hlen
              tmp_cells Wt) as (tmp' & Ep & Wp & Lp).
  exists cells', tmp'. unfold timestep.
  rewrite Ea. cbn [mbind option_bind]. rewrite Ep. cbn.
  repeat split; try assumption; try apply Wa; try apply Wp.
Qed.

(** ** BGK relaxation in exact arithmetic *)

(** The formulas of the BGK collision as the specification words them,
    over the reals; [g k] is the gathered value of speed [k]. *)
Module Bgk.
Local Open Scope R_scope.

Definition c_sq : R := 1 / 3.

Definition weight (k : nat) : R :=
  match k with
  | 0%nat => 4 / 9
  | 1%nat | 2%nat | 3%nat | 4%nat => 1 / 9
  | _ => 1 / 36
  end.

Definition local_density (g : nat -> R) : R :=
  g 0%nat + g 1%nat + g 2%nat + g 3%nat + g 4%nat
  + g 5%nat + g 6%nat + g 7%nat + g 8%nat.

Definition ux (g : nat -> R) : R :=
  (g 1%nat + g 5%nat + g 8%nat - g 3%nat - g 6%nat - g 7%nat)
  / local_density g.

Definition uy (g : nat -> R) : R :=
  (g 2%nat + g 5%nat + g 6%nat - g 4%nat - g 7%nat - g 8%nat)
  / local_density g.

(** signed projection of the velocity onto direction [k] *)
Definition u_dir (g : nat -> R) (k : nat) : R :=
  IZR (cx k) * ux g + IZR (cy k) * uy g.

Definition u_sq (g : nat -> R) : R := (ux g)² + (uy g)².

Definition equilibrium (g : nat -> R) (k : nat) : R :=
  weight k * local_density g
  * (1 + u_dir g k / c_sq + (u_dir g k)² / (2 * c_sq²)
     - u_sq g / (2 * c_sq)).

Definition relaxed (omega : R) (g : nat -> R) (k : nat) : R :=
  g k + omega * (equilibrium g k - g k).

End Bgk.

Lemma local_density_of_R (g : cell9 R) :
  local_density_of g = Bgk.local_density (nth9 g).
Proof. destruct g as [[[[[[[[s0 s1] s2] s3] s4] s5] s6] s7] s8]. reflexivity. Qed.

Lemma u_x_of_R (g : cell9 R) : u_x_of g = Bgk.ux (nth9 g).
Proof. destruct g as [[[[[[[[s0 s1] s2] s3] s4] s5] s6] s7] s8]. reflexivity. Qed.

Lemma u_y_of_R (g : cell9 R) : u_y_of g = Bgk.uy (nth9 g).
Proof. destruct g as [[[[[[[[s0 s1] s2] s3] s4] s5] s6] s7] s8]. reflexivity. Qed.

Lemma speed_of_R (g : cell9 R) : speed_of g = sqrt (Bgk.u_sq (nth9 g)).
Proof. unfold speed_of. rewrite u_x_of_R, u_y_of_R. reflexivity. Qed.

Lemma collide_out_R (params : t_param R) (g : cell9 R) k :
  (k < NSPEEDS)%nat ->
  collide_out params g !! k = Some (Bgk.relaxed (omega params) (nth9 g) k).
Proof.
  intros Hk. unfold NSPEEDS in Hk.
  unfold Bgk.relaxed, Bgk.equilibrium, Bgk.u_sq, Bgk.u_dir.
  rewrite <- u_x_of_R, <- u_y_of_R, <- local_density_of_R.
  unfold collide_out.
  generalize (u_x_of g) (u_y_of g) (local_density_of g). intros vx vy rho.
  destruct g as [[[[[[[[s0 s1] s2] s3] s4] s5] s6] s7] s8].
  unfold Bgk.c_sq, Rsqr.
  do 9 (destruct k as [|k];
        [cbn [lookup list_lookup nth9 Bgk.weight cx cy nth
              fadd fsub fmul fdiv fneg of_int R_arith];
         f_equal; field|]).
  lia.
Qed.

(** A one-cell grid over the reals. *)
Module DemoR.
Definition params : t_param R :=
  {| nx := 1; ny := 1; maxIters := 2; reynolds_dim := 1;
     density := 1%R; accel := 0%R; omega := 1%R |}.
Definition cells : t_speed R := replicate 9 [1%R].
Definition obstacles : list Z := [0].

Lemma one_cell_wf : wf 1 cells.
Proof. split; [reflexivity | repeat constructor]. Qed.
End DemoR.

(** C3: in a fluid cell, [propagate] computes [local_density] as the sum
    of the nine gathered values, [u_x] and [u_y] by the stated quotients,
    and writes for each speed [k] the value
    [g k + omega * (eq k - g k)], where
    [eq k = w k * local_density * (1 + u_k / c_sq + u_k^2 / (2 c_sq^2)
    - u_sq / (2 c_sq))], [c_sq = 1/3], [w] is 4/9, 1/9 or 1/36; the loop
    body adds [sqrt u_sq] to [tot_u] and 1 to [tot_cells].  Exact
    arithmetic. *)
Theorem fluid_cell_relaxes
    (params : t_param R) (cells tmp_cells : t_speed R)
    (obstacles : list Z) (jj ii : Z) :
  0 < nx params -> 0 < ny params ->
  wf (nx params * ny params) cells ->
  wf (nx params * ny params) tmp_cells ->
  Z.of_nat (length obstacles) = nx params * ny params ->
  0 <= jj < ny params -> 0 <= ii < nx params ->
  obstacle_at obstacles (index params jj ii) = 0 ->
  exists g tmp' av,
    gather params cells jj ii = Some g /\
    propagate params cells tmp_cells obstacles = Some (tmp', av) /\
    local_density_of g = Bgk.local_density (nth9 g) /\
    u_x_of g = Bgk.ux (nth9 g) /\
    u_y_of g = Bgk.uy (nth9 g) /\
    (forall k, (k < NSPEEDS)%nat ->
       load tmp' k (index params jj ii)
       = Some (Bgk.relaxed (omega params) (nth9 g) k)) /\
    (forall t u n, wf (nx params * ny params) t ->
       exists t',
         propagate_cell params cells obstacles jj ii (t, u, n)
         = Some (t', (u + sqrt (Bgk.u_sq (nth9 g)))%R, n + 1)) /\
    av = (tot_u_rows params cells obstacles (Z.to_nat (ny params))
          / IZR (tot_cells_rows params obstacles (Z.to_nat (ny params))))%R /\
    u_at params cells obstacles jj ii = sqrt (Bgk.u_sq (nth9 g)) /\
    n_at params obstacles jj ii = 1.
Proof.
  intros Hx Hy W Wt Hlen Hj Hi Hobs.
  destruct (propagate_spec params cells obstacles Hx Hy W Hlen tmp_cells Wt)
    as (tmp' & E & W' & L).
  assert (Hu : u_at params cells obstacles jj ii
               = sqrt (Bgk.u_sq (nth9 (gather_at params cells jj ii)))).
  { unfold u_at. rewrite decide_False by (intros H; apply H, Hobs).
    apply speed_of_R. }
  assert (Hn : n_at params obstacles jj ii = 1).
  { unfold n_at. rewrite decide_False by (intros H; apply H, Hobs).
    reflexivity. }
  exists (gather_at params cells jj ii), tmp'. eexists.
  split; [apply gather_total; assumption|].
  split; [exact E|].
  split; [apply local_density_of_R|].
  split; [apply u_x_of_R|].
  split; [apply u_y_of_R|].
  split.
  { intros k Hk. rewrite L by assumption. unfold out_at.
    rewrite decide_False by (intros H; apply H, Hobs).
    apply collide_out_R, Hk. }
  split; [|auto].
  intros t u n Wt'.
  destruct (propagate_cell_spec params cells obstacles Hx Hy W Hlen
              jj ii t u n Hj Hi Wt') as (t' & E' & _).
  exists t'. rewrite E', Hu, Hn. reflexivity.
Qed.

Lemma fluid_cell_relaxes_witness :
  exists g tmp' av,
    gather DemoR.params DemoR.cells 0 0 = Some g /\
    propagate DemoR.params DemoR.cells DemoR.cells DemoR.obstacles
      = Some (tmp', av) /\
    local_density_of g = Bgk.local_density (nth9 g) /\
    u_x_of g = Bgk.ux (nth9 g) /\
    u_y_of g = Bgk.uy (nth9 g) /\
    (forall k, (k < NSPEEDS)%nat ->
       load tmp' k (index DemoR.params 0 0)
       = Some (Bgk.relaxed (omega DemoR.params) (nth9 g) k)) /\
    (forall t u n, wf (nx DemoR.params * ny DemoR.params) t ->
       exists t',
         propagate_cell DemoR.params DemoR.cells DemoR.obstacles 0 0 (t, u, n)
         = Some (t', (u + sqrt (Bgk.u_sq (nth9 g)))%R, n + 1)) /\
    av = (tot_u_rows DemoR.params DemoR.cells DemoR.obstacles
            (Z.to_nat (ny DemoR.params))
          / IZR (tot_cells_rows DemoR.params DemoR.obstacles
                   (Z.to_nat (ny DemoR.params))))%R /\
    u_at DemoR.params DemoR.cells DemoR.obstacles 0 0
      = sqrt (Bgk.u_sq (nth9 g)) /\
    n_at DemoR.params DemoR.obstacles 0 0 = 1.
Proof.
  apply (fluid_cell_relaxes DemoR.params DemoR.cells DemoR.cells
           DemoR.obstacles 0 0);
    [reflexivity | reflexivity | exact DemoR.one_cell_wf | exact DemoR.one_cell_wf
    | reflexivity | simpl; lia | simpl; lia | reflexivity].
Defined.

(** ** The timestep loop *)

Section Driver.

Context {F : Type} {AF : Arith F}.
Variable params : t_param F.
Variable obstacles : list Z.

Hypothesis nx_pos : 0 < nx params.
Hypothesis ny_two : 2 <= ny params.
Hypothesis obstacles_len :
  Z.of_nat (length obstacles) = nx params * ny params.

Definition main_state_ok (st : main_state F) : Prop :=
  wf (nx params * ny params) (st_cells st) /\
  wf (nx params * ny params) (st_tmp_cells st) /\
  Z.of_nat (length (st_av_vels st)) = maxIters params.

Lemma store_av_ok (av_vels : list F) i v :
  0 <= i < Z.of_nat (length av_vels) ->
  exists av', store_av av_vels i v = Some av' /\ length av' = length av_vels.
Proof.
  intros Hi. unfold store_av. rewrite decide_True by exact Hi.
  eexists. split; [reflexivity|]. apply length_insert.
Qed.

(** When [maxIters] is even, the loop runs to completion, calls
    [timestep] once per iteration count and stays inside [av_vels]. *)
Lemma main_loop_even (m : nat) : forall fuel tt st,
  (m < fuel)%nat -> 0 <= tt ->
  maxIters params = tt + 2 * Z.of_nat m ->
  main_state_ok st ->
  exists st',
    main_loop fuel params obstacles tt st = inr st' /\
    st_calls st' = (st_calls st + 2 * m)%nat /\
    main_state_ok st'.
Proof.
  induction m as [|m IH]; intros fuel tt st Hf Ht Hm (Wc & Wt & Hl).
  - destruct fuel as [|fuel]; [lia|]. cbn [main_loop].
    rewrite decide_False by lia. exists st.
    split; [reflexivity|]. split; [lia|]. exact (conj Wc (conj Wt Hl)).
  - destruct fuel as [|fuel]; [lia|]. cbn [main_loop].
    rewrite decide_True by lia.
    destruct (timestep_spec params _ _ obstacles nx_pos ny_two Wc Wt obstacles_len)
      as (c1 & t1 & _ & E1 & Wc1 & Wt1 & _).
    rewrite E1.
    destruct (store_av_ok (st_av_vels st) tt
                (fdiv (tot_u_rows params c1 obstacles (Z.to_nat (ny params)))
                   (of_int (tot_cells_rows params obstacles
                              (Z.to_nat (ny params))))) ltac:(lia))
      as (av1 & Ea1 & La1).
    rewrite Ea1.
    destruct (timestep_spec params _ _ obstacles nx_pos ny_two Wt1 Wc1 obstacles_len)
      as (t2 & c2 & _ & E2 & Wt2 & Wc2 & _).
    rewrite E2.
    destruct (store_av_ok av1 (tt + 1)
                (fdiv (tot_u_rows params t2 obstacles (Z.to_nat (ny params)))
                   (of_int (tot_cells_rows params obstacles
                              (Z.to_nat (ny params))))) ltac:(lia))
      as (av2 & Ea2 & La2).
    rewrite Ea2.
    destruct (IH fuel (tt + 2)
                {| st_cells := c2; st_tmp_cells := t2; st_av_vels := av2;
                   st_calls := S (S (st_calls st)) |})
      as (st' & E' & Hc' & Hok'); try lia.
    { split; [exact Wc2|]. split; [exact Wt2|]. cbn. lia. }
    exists st'. split; [exact E'|]. split; [cbn in Hc'; lia | exact Hok'].
Qed.

(** When [maxIters] is odd, the last iteration calls [timestep] a
    second time and stores its result at [av_vels[maxIters]]. *)
Lemma main_loop_odd (m : nat) : forall fuel tt st,
  (m < fuel)%nat -> 0 <= tt ->
  maxIters params = tt + 2 * Z.of_nat m + 1 ->
  main_state_ok st ->
  main_loop fuel params obstacles tt st
  = inl (AvVelsFault (maxIters params) (st_calls st + 2 * m + 2)).
Proof.
  induction m as [|m IH]; intros fuel tt st Hf Ht Hm (Wc & Wt & Hl);
    (destruct fuel as [|fuel]; [lia|]); cbn [main_loop];
    rewrite decide_True by lia;
    destruct (timestep_spec params _ _ obstacles nx_pos ny_two Wc Wt obstacles_len)
      as (c1 & t1 & _ & E1 & Wc1 & Wt1 & _);
    rewrite E1;
    destruct (store_av_ok (st_av_vels st) tt
                (fdiv (tot_u_rows params c1 obstacles (Z.to_nat (ny params)))
                   (of_int (tot_cells_rows params obstacles
                              (Z.to_nat (ny params))))) ltac:(lia))
      as (av1 & Ea1 & La1);
    rewrite Ea1;
    destruct (timestep_spec params _ _ obstacles nx_pos ny_two Wt1 Wc1 obstacles_len)
      as (t2 & c2 & _ & E2 & Wt2 & Wc2 & _);
    rewrite E2.
  - unfold store_av. rewrite decide_False by lia.
    do 2 f_equal; lia.
  - destruct (store_av_ok av1 (tt + 1)
                (fdiv (tot_u_rows params t2 obstacles (Z.to_nat (ny params)))
                   (of_int (tot_cells_rows params obstacles
                              (Z.to_nat (ny params))))) ltac:(lia))
      as (av2 & Ea2 & La2).
    rewrite Ea2.
    rewrite (IH fuel (tt + 2)) by
      first [lia | (split; [exact Wc2|]; split; [exact Wt2|]; cbn; lia)].
    cbn. do 2 f_equal. lia.
Qed.

End Driver.

Module DemoRun.

Definition params (iters : Z) : t_param F32.float :=
  {| nx := 3; ny := 3; maxIters := iters; reynolds_dim := 1;
     density := of_int 1; accel := of_int 0; omega := of_int 1 |}.

(** the state at the entry of the loop; [av_vels] has [iters] entries *)
Definition start (iters : Z) : main_state F32.float :=
  {| st_cells := Demo.cells; st_tmp_cells := Demo.blank;
     st_av_vels := replicate (Z.to_nat iters) (of_int 0);
     st_calls := 0 |}.

Definition run (iters : Z) : fault + main_state F32.float :=
  main_loop (S (Z.to_nat iters)) (params iters) Demo.obstacles 0 (start iters).

End DemoRun.

(** C7 fails on the code for odd [maxIters]: with [maxIters = 1] the
    loop calls [timestep] twice and stores the second average at
    [av_vels[1]], outside the buffer of one entry; with [maxIters = 3]
    it is four calls and a store at [av_vels[3]]. *)
Theorem main_loop_overruns_av_vels :
  DemoRun.run 1 = inl (AvVelsFault 1 2) /\
  DemoRun.run 3 = inl (AvVelsFault 3 4) /\
  (exists st, DemoRun.run 2 = inr st /\
              st_calls st = 2%nat /\ length (st_av_vels st) = 2%nat).
Proof.
  split; [vm_compute; reflexivity|].
  split; [vm_compute; reflexivity|].
  eexists. split; [vm_compute; reflexivity|].
  split; reflexivity.
Qed.

(** ** The final-state file *)

Module DemoOut.

(** the 3x3 grid with one obstacle at [x = 2], [y = 0] (linear index 2) *)
Definition obstacles : list Z := [0; 0; 1; 0; 0; 0; 0; 0; 0].

(** a 3x1 grid without obstacles *)
Definition wide : t_param F32.float :=
  {| nx := 3; ny := 1; maxIters := 0; reynolds_dim := 1;
     density := of_int 1; accel := of_int 0; omega := of_int 1 |}.

Definition wide_cells : t_speed F32.float :=
  replicate 9 (replicate 3 (of_int 1)).

(** the fields [ii jj u_x u_y u obstacle] of line [n] of the output *)
Definition fields (out : option (list (state_line F32.float)
                                 * list (Z * F32.float))) (n : nat) :=
  r ← out; l ← r.1 !! n;
  Some (line_ii l, line_jj l, line_u_x l, line_u_y l, line_u l,
        line_obstacle l).

End DemoOut.

(** C9 fails on the code: the flag printed for the cell [(jj, ii)] is
    [obstacles[ii * nx + jj]], not [obstacles[ii + jj * nx]].  On the
    3x3 grid with its one obstacle at row 0, column 2, the line of that
    cell takes the obstacle branch (zero velocity) and prints flag 0,
    and the line of the fluid cell at row 2, column 0 prints flag 1;
    on a 3x1 grid the lookup runs past the end of the mask. *)
Theorem write_values_prints_transposed_flag :
  obstacle_at DemoOut.obstacles (index Demo.params 0 2) = 1 /\
  DemoOut.fields
    (write_values Demo.params Demo.cells DemoOut.obstacles
       [of_int 0; of_int 0]) 2
  = Some (2, 0, of_int 0, of_int 0, of_int 0, 0) /\
  obstacle_at DemoOut.obstacles (index Demo.params 2 0) = 0 /\
  (exists u_x u_y u,
     DemoOut.fields
       (write_values Demo.params Demo.cells DemoOut.obstacles
          [of_int 0; of_int 0]) 6
     = Some (0, 2, u_x, u_y, u, 1) /\ u <> of_int 0) /\
  write_values DemoOut.wide DemoOut.wide_cells [0; 0; 0] [] = None.
Proof.
  split; [reflexivity|].
  split; [vm_compute; reflexivity|].
  split; [reflexivity|].
  split; [|vm_compute; reflexivity].
  do 3 eexists. split; [vm_compute; reflexivity|]. discriminate.
Qed.

(** ** Forcing *)

(** C5, as the code has it: on a grid with at least two rows,
    [accelerate_flow] changes only cells of the row [ny - 2] whose
    obstacle flag is 0, and there it applies the update (add [w1] to
    speed 1 and [w2] to speeds 5 and 8, subtract [w1] from speed 3 and
    [w2] from speeds 6 and 7) exactly when the three differences
    [speeds3 - w1], [speeds6 - w2] and [speeds7 - w2] are strictly
    positive; every other cell and speed keeps its value. *)
Theorem accelerate_flow_row {F : Type} {AF : Arith F}
    (params : t_param F) (cells : t_speed F) (obstacles : list Z) :
  0 < nx params -> 2 <= ny params ->
  wf (nx params * ny params) cells ->
  Z.of_nat (length obstacles) = nx params * ny params ->
  let w1 := fdiv (fmul (density params) (accel params)) (of_int 9) in
  let w2 := fdiv (fmul (density params) (accel params)) (of_int 36) in
  exists cells',
    accelerate_flow params cells obstacles = Some cells' /\
    wf (nx params * ny params) cells' /\
    forall jj ii, 0 <= jj < ny params -> 0 <= ii < nx params ->
      let i := index params jj ii in
      let old k := peek cells k i in
      let new k := load cells' k i in
      if decide (jj = ny params - 2) then
        if decide (obstacle_at obstacles i = 0) then
          if fgt (fsub (old 3%nat) w1) (of_int 0)
             && fgt (fsub (old 6%nat) w2) (of_int 0)
             && fgt (fsub (old 7%nat) w2) (of_int 0)
          then
            new 0%nat = Some (old 0%nat) /\
            new 1%nat = Some (fadd (old 1%nat) w1) /\
            new 2%nat = Some (old 2%nat) /\
            new 3%nat = Some (fsub (old 3%nat) w1) /\
            new 4%nat = Some (old 4%nat) /\
            new 5%nat = Some (fadd (old 5%nat) w2) /\
            new 6%nat = Some (fsub (old 6%nat) w2) /\
            new 7%nat = Some (fsub (old 7%nat) w2) /\
            new 8%nat = Some (fadd (old 8%nat) w2)
          else forall k, (k < NSPEEDS)%nat -> new k = Some (old k)
        else forall k, (k < NSPEEDS)%nat -> new k = Some (old k)
      else forall k, (k < NSPEEDS)%nat -> new k = Some (old k).
Proof.
  intros Hx Hy W Hlen w1 w2.
  destruct (accelerate_flow_spec params cells obstacles Hx Hy W Hlen)
    as (cells' & E & W' & L).
  exists cells'. split; [exact E|]. split; [exact W'|].
  intros jj ii Hj Hi i old new.
  pose proof (index_range params jj ii Hj Hi) as Hr. fold i in Hr.
  assert (Hnew : forall k, (k < NSPEEDS)%nat ->
            new k = Some (after_forcing params cells obstacles k i)).
  { intros k Hk. apply L; assumption. }
  unfold after_forcing, forcing_applies in Hnew.
  fold w1 w2 in Hnew. unfold forcing_w1, forcing_w2 in Hnew. fold w1 w2 in Hnew.
  destruct (decide (jj = ny params - 2)) as [->|Hrow].
  - assert (Hin : index params (ny params - 2) 0 <= i
                  < index params (ny params - 2) (nx params)).
    { unfold i, index. lia. }
    destruct (decide (obstacle_at obstacles i = 0)) as [Ho|Ho].
    + fold (old 3%nat) (old 6%nat) (old 7%nat) in Hnew.
      destruct (fgt (fsub (old 3%nat) w1) (of_int 0)
                && fgt (fsub (old 6%nat) w2) (of_int 0)
                && fgt (fsub (old 7%nat) w2) (of_int 0)) eqn:G.
      * repeat split;
          (rewrite Hnew by (unfold NSPEEDS; lia);
           rewrite decide_True by exact Hin;
           rewrite (bool_decide_eq_true_2 _ Ho); cbn [andb];
           rewrite G; reflexivity).
      * intros k Hk. rewrite Hnew by exact Hk.
        rewrite decide_True by exact Hin.
        rewrite (bool_decide_eq_true_2 _ Ho). cbn [andb].
        rewrite G. reflexivity.
    + intros k Hk. rewrite Hnew by exact Hk.
      rewrite decide_True by exact Hin.
      rewrite (bool_decide_eq_false_2 _ Ho). reflexivity.
  - intros k Hk. rewrite Hnew by exact Hk.
    rewrite decide_False; [reflexivity|].
    intros Hin. apply Hrow.
    assert (Hc : index params jj ii
                 = index params (ny params - 2)
                     (i - (ny params - 2) * nx params)).
    { unfold i, index. lia. }
    apply index_inj in Hc; [tauto | lia |].
    unfold i, index in *. lia.
Qed.

Module DemoForce.

(** A 1x2 grid with [density = 9], [accel = 1]: [w1 = 1], [w2 = 1/4];
    every speed of every cell holds 1. *)
Definition params : t_param F32.float :=
  {| nx := 1; ny := 2; maxIters := 2; reynolds_dim := 1;
     density := of_int 9; accel := of_int 1; omega := of_int 1 |}.

Definition cells : t_speed F32.float := replicate 9 [of_int 1; of_int 1].

Definition obstacles : list Z := [0; 0].

Definition w1 : F32.float := fdiv (fmul (of_int 9) (of_int 1)) (of_int 9).
Definition w2 : F32.float := fdiv (fmul (of_int 9) (of_int 1)) (of_int 36).

Lemma forced_wf : wf 2 cells.
Proof. split; [reflexivity | repeat constructor]. Qed.

End DemoForce.

Lemma accelerate_flow_row_witness :
  let params := DemoForce.params in
  let cells := DemoForce.cells in
  let obstacles := DemoForce.obstacles in
  let w1 := fdiv (fmul (density params) (accel params)) (of_int 9) in
  let w2 := fdiv (fmul (density params) (accel params)) (of_int 36) in
  exists cells',
    accelerate_flow params cells obstacles = Some cells' /\
    wf (nx params * ny params) cells' /\
    forall jj ii, 0 <= jj < ny params -> 0 <= ii < nx params ->
      let i := index params jj ii in
      let old k := peek cells k i in
      let new k := load cells' k i in
      if decide (jj = ny params - 2) then
        if decide (obstacle_at obstacles i = 0) then
          if fgt (fsub (old 3%nat) w1) (of_int 0)
             && fgt (fsub (old 6%nat) w2) (of_int 0)
             && fgt (fsub (old 7%nat) w2) (of_int 0)
          then
            new 0%nat = Some (old 0%nat) /\
            new 1%nat = Some (fadd (old 1%nat) w1) /\
            new 2%nat = Some (old 2%nat) /\
            new 3%nat = Some (fsub (old 3%nat) w1) /\
            new 4%nat = Some (old 4%nat) /\
            new 5%nat = Some (fadd (old 5%nat) w2) /\
            new 6%nat = Some (fsub (old 6%nat) w2) /\
            new 7%nat = Some (fsub (old 7%nat) w2) /\
            new 8%nat = Some (fadd (old 8%nat) w2)
          else forall k, (k < NSPEEDS)%nat -> new k = Some (old k)
        else forall k, (k < NSPEEDS)%nat -> new k = Some (old k)
      else forall k, (k < NSPEEDS)%nat -> new k = Some (old k).
Proof.
  apply (accelerate_flow_row DemoForce.params DemoForce.cells
           DemoForce.obstacles);
    [reflexivity | simpl; lia | exact DemoForce.forced_wf | reflexivity].
Defined.

(** C5 as stated fails on the boundary of the guard: in the cell of
    row [ny - 2 = 0] the flag is 0 and the three differences are 0, 3/4
    and 3/4, none of them negative, yet [accelerate_flow] leaves the
    cell as it is: speed 1 keeps the value 1 instead of [1 + w1 = 2]. *)
Lemma forcing_skips_zero_difference :
  obstacle_at DemoForce.obstacles (index DemoForce.params 0 0) = 0 /\
  SFleb (of_int 0)
        (fsub (peek DemoForce.cells 3 (index DemoForce.params 0 0))
              DemoForce.w1) = true /\
  SFleb (of_int 0)
        (fsub (peek DemoForce.cells 6 (index DemoForce.params 0 0))
              DemoForce.w2) = true /\
  SFleb (of_int 0)
        (fsub (peek DemoForce.cells 7 (index DemoForce.params 0 0))
              DemoForce.w2) = true /\
  accelerate_flow DemoForce.params DemoForce.cells DemoForce.obstacles
    = Some DemoForce.cells /\
  peek DemoForce.cells 1 (index DemoForce.params 0 0) = of_int 1 /\
  fadd (of_int 1) DemoForce.w1 = of_int 2.
Proof. repeat split; vm_compute; reflexivity. Qed.

(** ** The initial state *)

Section Init.

Context {F : Type} {AF : Arith F}.
Variable params : t_param F.

Hypothesis nx_pos : 0 < nx params.
Hypothesis ny_pos : 0 < ny params.

(** The nine values [main] assigns to every cell: [w0], four times
    [w1], four times [w2]. *)
Definition init_speeds : list F :=
  let w0 := fdiv (fmul (density params) (of_int 4)) (of_int 9) in
  let w1 := fdiv (density params) (of_int 9) in
  let w2 := fdiv (density params) (of_int 36) in
  [w0; w1; w1; w1; w1; w2; w2; w2; w2].

(** The grid at rest: every cell holds [init_speeds]. *)
Definition equilibrium_cells : t_speed F :=
  map (replicate (Z.to_nat (nx params * ny params))) init_speeds.





End Init.

(** ** The grid at rest *)

(** The calls [main] makes: [timestep] on the two buffers, their roles
    exchanged after every call; the result is the current buffer, the
    scratch buffer and the averages in the order they were returned. *)
Fixpoint run_steps {F : Type} {AF : Arith F} (n : nat) (params : t_param F)
    (cells tmp_cells : t_speed F) (obstacles : list Z)
    : option ((t_speed F) * (t_speed F) * list F) :=
  match n with
  | O => Some (cells, tmp_cells, [])
  | S n' =>
    r ← timestep params cells tmp_cells obstacles;
    let '(cells', tmp_cells', av) := r in
    r' ← run_steps n' params tmp_cells' cells' obstacles;
    Some (r'.1.1, r'.1.2, av :: r'.2)
  end.



Section Rest.

Local Open Scope R_scope.

Variable params : t_param R.
Variable obstacles : list Z.

Hypothesis nx_pos : (0 < nx params)%Z.
Hypothesis ny_two : (2 <= ny params)%Z.
Hypothesis no_accel : accel params = 0.
Hypothesis no_obstacles : Forall (fun o => o = 0%Z) obstacles.
Hypothesis obstacles_len :
  Z.of_nat (length obstacles) = (nx params * ny params)%Z.

Let rest := equilibrium_cells params.







End Rest.

Module DemoRest.

(** A 1x2 grid over the reals. *)
Definition paramsR : t_param R :=
  {| nx := 1; ny := 2; maxIters := 2; reynolds_dim := 1;
     density := 1%R; accel := 0%R; omega := 1%R |}.
Definition bufR : t_speed R := replicate 9 [1%R; 1%R].

Lemma bufR_wf : wf 2 bufR.
Proof. split; [reflexivity | repeat constructor]. Qed.

(** The binary32 number nearest to 0.1. *)
Definition tenth : F32.float := S754_finite false 13421773 (-27).

(** The end-to-end scenario of the specification, in binary32:
    [nx = ny = 2], no obstacles, [density = 0.1], [accel = 0],
    [omega = 1]. *)
Definition params : t_param F32.float :=
  {| nx := 2; ny := 2; maxIters := 1; reynolds_dim := 1;
     density := tenth; accel := of_int 0; omega := of_int 1 |}.


(** A grid of one row. *)
Definition flat : t_param F32.float :=
  {| nx := 2; ny := 1; maxIters := 1; reynolds_dim := 1;
     density := tenth; accel := of_int 0; omega := of_int 1 |}.

Definition blank (n : nat) : t_speed F32.float :=
  replicate 9 (replicate n (of_int 0)).


End DemoRest.

Example tenth_is_one_tenth :
  DemoRest.tenth = fdiv (of_int 1) (of_int 10).
Proof. vm_compute. reflexivity. Qed.




(** ** Sums over the grid *)

Lemma for_loop_pure {S : Type} (n : nat) (body : Z -> S -> option S)
    (g : Z -> S -> S) (s : S) :
  (forall i s, 0 <= i < Z.of_nat n -> body i s = Some (g i s)) ->
  for_loop n 0 body s = Some (fold_upto n g s).
Proof.
  intros Hb.
  destruct (for_loop_inv (fun k s' => s' = fold_upto k g s) body n 0 s)
    as (s' & E & ->).
  - reflexivity.
  - intros k t Hk ->. rewrite Z.add_0_l. exists (g (Z.of_nat k) (fold_upto k g s)).
    split; [apply Hb; lia | reflexivity].
  - exact E.
Qed.


Section Sums.

Local Open Scope R_scope.











End Sums.


(** ** Conservation of the total density *)


Section Mass.

Local Open Scope R_scope.

Variable params : t_param R.

Hypothesis nx_pos : (0 < nx params)%Z.
Hypothesis ny_pos : (0 < ny params)%Z.












End Mass.



Module DemoMass.




End DemoMass.


(** * Further properties of the program *)

(** ** Memory safety of a step *)

(** On a grid of [nx > 0] columns and [ny >= 2] rows whose buffers hold
    [nx * ny] cells, [timestep] stays inside every buffer, whatever the
    values stored and whatever the arithmetic, and leaves two buffers of
    the same shape. *)
Theorem timestep_in_bounds {F : Type} {AF : Arith F}
    (params : t_param F) (cells tmp_cells : t_speed F) (obstacles : list Z) :
  0 < nx params -> 2 <= ny params ->
  wf (nx params * ny params) cells ->
  wf (nx params * ny params) tmp_cells ->
  Z.of_nat (length obstacles) = nx params * ny params ->
  exists cells' tmp' av,
    timestep params cells tmp_cells obstacles = Some (cells', tmp', av) /\
    wf (nx params * ny params) cells' /\
    wf (nx params * ny params) tmp'.
Proof.
  intros Hx Hy W Wt Hlen.
  destruct (timestep_spec params cells tmp_cells obstacles Hx Hy W Wt Hlen)
    as (cells' & tmp' & _ & E & Wc & Wt' & _).
  exists cells', tmp'. eexists. split; [exact E|]. split; assumption.
Qed.

Lemma timestep_in_bounds_witness :
  exists cells' tmp' av,
    timestep Demo.params Demo.cells Demo.blank Demo.obstacles
      = Some (cells', tmp', av) /\
    wf (nx Demo.params * ny Demo.params) cells' /\
    wf (nx Demo.params * ny Demo.params) tmp'.
Proof.
  apply (timestep_in_bounds Demo.params Demo.cells Demo.blank Demo.obstacles);
    [reflexivity | simpl; lia | exact Demo.grid_wf | exact Demo.blank_wf
    | reflexivity].
Defined.

Lemma for_loop_first_fails {S : Type} (n : nat) (body : Z -> S -> option S)
    (s : S) :
  (0 < n)%nat -> body 0 s = None -> for_loop n 0 body s = None.
Proof.
  intros Hn Hb. destruct n as [|n]; [lia|]. simpl. rewrite Hb. reflexivity.
Qed.

(** On a grid of one row, [accelerate_flow] addresses the row [-1]: its
    first access, [obstacles[0 - nx]], lies before the start of the
    mask, for every state and every mask. *)
Theorem accelerate_flow_one_row {F : Type} {AF : Arith F}
    (params : t_param F) (cells : t_speed F) (obstacles : list Z) :
  ny params = 1 -> 0 < nx params ->
  accelerate_flow params cells obstacles = None /\
  forall tmp_cells, timestep params cells tmp_cells obstacles = None.
Proof.
  intros Hy Hx.
  assert (E : accelerate_flow params cells obstacles = None).
  { unfold accelerate_flow. apply for_loop_first_fails; [lia|].
    cbv zeta. unfold load_int. rewrite decide_False by lia. reflexivity. }
  split; [exact E|]. intros tmp_cells. unfold timestep. rewrite E. reflexivity.
Qed.

Lemma accelerate_flow_one_row_witness :
  accelerate_flow DemoRest.flat (DemoRest.blank 2) [0; 0] = None /\
  forall tmp_cells,
    timestep DemoRest.flat (DemoRest.blank 2) tmp_cells [0; 0] = None.
Proof.
  apply (accelerate_flow_one_row DemoRest.flat (DemoRest.blank 2) [0; 0]);
    reflexivity.
Defined.

(** ** Double buffering *)

(** [propagate] overwrites every speed of every cell of [tmp_cells]: the
    buffer it leaves and the average it returns do not depend on what
    [tmp_cells] held before. *)
Theorem propagate_overwrites_scratch {F : Type} {AF : Arith F}
    (params : t_param F) (cells tmp1 tmp2 : t_speed F) (obstacles : list Z) :
  0 < nx params -> 0 < ny params ->
  wf (nx params * ny params) cells ->
  wf (nx params * ny params) tmp1 ->
  wf (nx params * ny params) tmp2 ->
  Z.of_nat (length obstacles) = nx params * ny params ->
  exists r,
    propagate params cells tmp1 obstacles = Some r /\
    propagate params cells tmp2 obstacles = Some r.
Proof.
  intros Hx Hy W W1 W2 Hlen.
  destruct (propagate_spec params cells obstacles Hx Hy W Hlen tmp1 W1)
    as (t1 & E1 & Wt1 & L1).
  destruct (propagate_spec params cells obstacles Hx Hy W Hlen tmp2 W2)
    as (t2 & E2 & Wt2 & L2).
  assert (Ht : t1 = t2).
  { apply (wf_ext (nx params * ny params)); [exact Wt1 | exact Wt2 |].
    intros k i Hk Hi.
    replace i with (index params (i / nx params) (i mod nx params)).
    - assert (Hq : 0 <= i / nx params < ny params).
      { split; [apply Z.div_pos; lia|]. apply Z.div_lt_upper_bound; lia. }
      assert (Hm : 0 <= i mod nx params < nx params)
        by (apply Z.mod_pos_bound; lia).
      rewrite L1, L2 by assumption. reflexivity.
    - unfold index. rewrite (Z.div_mod i (nx params)) at 3 by lia. lia. }
  eexists. split; [exact E1|]. rewrite E2, Ht. reflexivity.
Qed.

Lemma propagate_overwrites_scratch_witness :
  exists r,
    propagate Demo.params Demo.cells Demo.blank Demo.obstacles = Some r /\
    propagate Demo.params Demo.cells Demo.cells Demo.obstacles = Some r.
Proof.
  apply (propagate_overwrites_scratch Demo.params Demo.cells Demo.blank
           Demo.cells Demo.obstacles);
    [reflexivity | reflexivity | exact Demo.grid_wf | exact Demo.blank_wf
    | exact Demo.grid_wf | reflexivity].
Defined.

(** ** The forcing step and the sign of the densities *)

(** Whatever the arithmetic, [accelerate_flow] stores a difference
    [speeds - w] in speed 3, 6 or 7 only when the test [> 0.f] holds of
    that very difference: a value it lowers is left strictly
    positive. *)
Theorem accelerate_flow_stores_positive {F : Type} {AF : Arith F}
    (params : t_param F) (cells : t_speed F) (obstacles : list Z) :
  0 < nx params -> 2 <= ny params ->
  wf (nx params * ny params) cells ->
  Z.of_nat (length obstacles) = nx params * ny params ->
  exists cells',
    accelerate_flow params cells obstacles = Some cells' /\
    forall i k, 0 <= i < nx params * ny params ->
      k = 3%nat \/ k = 6%nat \/ k = 7%nat ->
      let w := if decide (k = 3%nat) then forcing_w1 params
               else forcing_w2 params in
      load cells' k i = Some (peek cells k i) \/
      (load cells' k i = Some (fsub (peek cells k i) w) /\
       fgt (fsub (peek cells k i) w) (of_int 0) = true).
Proof.
  intros Hx Hy W Hlen.
  destruct (accelerate_flow_spec params cells obstacles Hx Hy W Hlen)
    as (cells' & E & W' & L).
  exists cells'. split; [exact E|].
  intros i k Hi Hk w.
  assert (Hk9 : (k < NSPEEDS)%nat) by (unfold NSPEEDS; lia).
  rewrite (L k i Hk9 Hi).
  unfold after_forcing.
  destruct (decide (index params (ny params - 2) 0 <= i
                    < index params (ny params - 2) (nx params)));
    [|left; reflexivity].
  destruct (forcing_applies params cells obstacles i) eqn:G;
    [|left; reflexivity].
  right. unfold forcing_applies in G.
  apply andb_prop in G as [G G7]. apply andb_prop in G as [G G6].
  apply andb_prop in G as [_ G3].
  destruct Hk as [->|[->| ->]]; unfold w; cbn; auto.
Qed.

Lemma accelerate_flow_stores_positive_witness :
  exists cells',
    accelerate_flow DemoForce.params DemoForce.cells DemoForce.obstacles
      = Some cells' /\
    forall i k, 0 <= i < nx DemoForce.params * ny DemoForce.params ->
      k = 3%nat \/ k = 6%nat \/ k = 7%nat ->
      let w := if decide (k = 3%nat) then forcing_w1 DemoForce.params
               else forcing_w2 DemoForce.params in
      load cells' k i = Some (peek DemoForce.cells k i) \/
      (load cells' k i = Some (fsub (peek DemoForce.cells k i) w) /\
       fgt (fsub (peek DemoForce.cells k i) w) (of_int 0) = true).
Proof.
  apply (accelerate_flow_stores_positive DemoForce.params DemoForce.cells
           DemoForce.obstacles);
    [reflexivity | simpl; lia | exact DemoForce.forced_wf | reflexivity].
Defined.

Lemma Rgt_bool_true (a b : R) : Rgt_bool a b = true -> (b < a)%R.
Proof. unfold Rgt_bool. destruct (Rlt_dec b a); [auto | discriminate]. Qed.

(** In exact arithmetic, when [density * accel] is not negative,
    [accelerate_flow] keeps every density of a non-negative state
    non-negative. *)
Theorem accelerate_flow_keeps_nonnegative
    (params : t_param R) (cells : t_speed R) (obstacles : list Z) :
  0 < nx params -> 2 <= ny params ->
  wf (nx params * ny params) cells ->
  Z.of_nat (length obstacles) = nx params * ny params ->
  (0 <= density params * accel params)%R ->
  (forall k i, (k < NSPEEDS)%nat -> 0 <= i < nx params * ny params ->
     (0 <= peek cells k i)%R) ->
  exists cells',
    accelerate_flow params cells obstacles = Some cells' /\
    forall k i, (k < NSPEEDS)%nat -> 0 <= i < nx params * ny params ->
      (0 <= peek cells' k i)%R.
Proof.
  intros Hx Hy W Hlen Hda Hpos.
  destruct (accelerate_flow_spec params cells obstacles Hx Hy W Hlen)
    as (cells' & E & W' & L).
  exists cells'. split; [exact E|].
  intros k i Hk Hi. rewrite (peek_load _ _ _ _ (L k i Hk Hi)).
  unfold after_forcing.
  destruct (decide (index params (ny params - 2) 0 <= i
                    < index params (ny params - 2) (nx params)));
    [|apply Hpos; assumption].
  destruct (forcing_applies params cells obstacles i) eqn:G;
    [|apply Hpos; assumption].
  unfold forcing_applies in G.
  apply andb_prop in G as [G G7]. apply andb_prop in G as [G G6].
  apply andb_prop in G as [_ G3].
  apply Rgt_bool_true in G3, G6, G7.
  assert (H1 : (0 <= forcing_w1 params)%R).
  { unfold forcing_w1. cbn. lra. }
  assert (H2 : (0 <= forcing_w2 params)%R).
  { unfold forcing_w2. cbn. lra. }
  cbn in G3, G6, G7. unfold NSPEEDS in Hk.
  pose proof (Hpos 1%nat i ltac:(unfold NSPEEDS; lia) Hi).
  pose proof (Hpos 5%nat i ltac:(unfold NSPEEDS; lia) Hi).
  pose proof (Hpos 8%nat i ltac:(unfold NSPEEDS; lia) Hi).
  unfold forcing_w1, forcing_w2 in H1, H2. cbn in H1, H2.
  do 9 (destruct k as [|k];
        [cbn [forced_value fadd fsub R_arith];
         first [apply Hpos; [unfold NSPEEDS; lia | exact Hi]
               | unfold forcing_w1, forcing_w2; cbn; lra]|]).
  lia.
Qed.

Lemma accelerate_flow_keeps_nonnegative_witness :
  exists cells',
    accelerate_flow DemoRest.paramsR DemoRest.bufR [0; 0] = Some cells' /\
    forall k i, (k < NSPEEDS)%nat ->
      0 <= i < nx DemoRest.paramsR * ny DemoRest.paramsR ->
      (0 <= peek cells' k i)%R.
Proof.
  apply (accelerate_flow_keeps_nonnegative DemoRest.paramsR DemoRest.bufR
           [0; 0]);
    [reflexivity | simpl; lia | exact DemoRest.bufR_wf | reflexivity
    | simpl; lra |].
  intros k i Hk Hi. unfold NSPEEDS in Hk.
  change (nx DemoRest.paramsR * ny DemoRest.paramsR) with 2 in Hi.
  assert (Hc : i = 0 \/ i = 1) by lia.
  do 9 (destruct k as [|k];
        [destruct Hc as [-> | ->];
         match goal with |- (0 <= ?x)%R => change x with 1%R end; lra|]).
  lia.
Defined.

(** ** The map of obstacles built by initialise *)

Lemma store_int_spec (o : list Z) i v :
  0 <= i < Z.of_nat (length o) ->
  exists o', store_int o i v = Some o' /\ length o' = length o /\
    forall i', obstacle_at o' i' = if decide (i' = i) then v
                                   else obstacle_at o i'.
Proof.
  intros Hi. unfold store_int. rewrite decide_True by exact Hi.
  eexists. split; [reflexivity|]. split; [apply length_insert|].
  intros i'. unfold obstacle_at, load_int.
  destruct (decide (i' = i)) as [->|Hne].
  - rewrite decide_True by lia.
    rewrite list_lookup_insert_eq by lia. reflexivity.
  - destruct (decide (0 <= i')); [|reflexivity].
    rewrite list_lookup_insert_ne by lia. reflexivity.
Qed.

(** A line [initialise] accepts. *)
Definition valid_line {F : Type} (params : t_param F) (l : scan) : Prop :=
  match l with
  | Scanned xx yy blocked =>
      0 <= xx < nx params /\ 0 <= yy < ny params /\ blocked = 1
  | Short _ => False
  end.

Section Obstacles.

Context {F : Type} {AF : Arith F}.
Variable params : t_param F.

Lemma zero_obstacles_spec (buf : list Z) :
  Z.of_nat (length buf) = nx params * ny params ->
  exists zeroed,
    zero_obstacles params buf = Some zeroed /\
    length zeroed = length buf /\
    forall jj ii, 0 <= jj < ny params -> 0 <= ii < nx params ->
      obstacle_at zeroed (index params jj ii) = 0.
Proof.
  intros Hlen. unfold zero_obstacles.
  destruct (for_loop_inv
    (fun r (o : list Z) =>
       length o = length buf /\
       forall jj ii, 0 <= jj < Z.of_nat r -> 0 <= ii < nx params ->
         obstacle_at o (index params jj ii) = 0)
    (fun jj o =>
       for_loop (Z.to_nat (nx params)) 0
         (fun ii o => store_int o (ii + jj * nx params) 0) o)
    (Z.to_nat (ny params)) 0 buf) as (z & E & Hl & Hz).
  - split; [reflexivity|]. intros; lia.
  - intros r o Hr [Hl Hz]. rewrite Z.add_0_l.
    destruct (for_loop_inv
      (fun c (o' : list Z) =>
         length o' = length buf /\
         (forall jj ii, 0 <= jj < Z.of_nat r -> 0 <= ii < nx params ->
            obstacle_at o' (index params jj ii) = 0) /\
         forall ii, 0 <= ii < Z.of_nat c ->
            obstacle_at o' (index params (Z.of_nat r) ii) = 0)
      (fun ii o => store_int o (ii + Z.of_nat r * nx params) 0)
      (Z.to_nat (nx params)) 0 o) as (o' & E' & Hl' & Hz' & Hrow).
    + split; [exact Hl|]. split; [exact Hz|]. intros; lia.
    + intros c t Hc (Hlt & Hzt & Hrt). rewrite Z.add_0_l.
      destruct (store_int_spec t (Z.of_nat c + Z.of_nat r * nx params) 0)
        as (t' & Et & Hlt' & Lt).
      { pose proof (index_range params (Z.of_nat r) (Z.of_nat c)
                      ltac:(lia) ltac:(lia)) as Hr'.
        unfold index in Hr'. lia. }
      exists t'. split; [exact Et|]. split; [lia|]. split.
      * intros jj ii Hj Hi. rewrite Lt.
        destruct (decide _); [reflexivity | apply Hzt; assumption].
      * intros ii Hi. rewrite Lt.
        destruct (decide _) as [|Hne]; [reflexivity|].
        apply Hrt. unfold index in Hne. lia.
    + exists o'. split; [exact E'|]. split; [exact Hl'|].
      intros jj ii Hj Hi. destruct (decide (jj = Z.of_nat r)) as [->|Hne].
      * apply Hrow. lia.
      * apply Hz'; lia.
  - exists z. split; [exact E|]. split; [exact Hl|].
    intros jj ii Hj Hi. apply Hz; lia.
Qed.

Lemma read_obstacles_valid (lines : list scan) :
  Forall (valid_line params) lines ->
  forall mask,
    Z.of_nat (length mask) = nx params * ny params ->
    exists mask',
      read_obstacles params lines mask = inr mask' /\
      length mask' = length mask /\
      forall jj ii, 0 <= jj < ny params -> 0 <= ii < nx params ->
        ((Scanned ii jj 1 ∈ lines) /\
         obstacle_at mask' (index params jj ii) = 1) \/
        ((Scanned ii jj 1 ∉ lines) /\
         obstacle_at mask' (index params jj ii)
         = obstacle_at mask (index params jj ii)).
Proof.
  induction 1 as [|l lines Hl Hall IH]; intros mask Hlen.
  - exists mask. split; [reflexivity|]. split; [reflexivity|].
    intros jj ii _ _. right. split; [apply not_elem_of_nil | reflexivity].
  - destruct l as [xx yy blocked|n]; [|destruct Hl].
    destruct Hl as (Hx & Hy & ->). cbn [read_obstacles].
    rewrite decide_False by lia. rewrite decide_False by lia.
    rewrite decide_False by (intros H; apply H; reflexivity).
    destruct (store_int_spec mask (xx + yy * nx params) 1)
      as (m1 & E1 & L1 & S1).
    { pose proof (index_range params yy xx Hy Hx) as Hr.
      unfold index in Hr. lia. }
    rewrite E1.
    destruct (IH m1 ltac:(lia)) as (mask' & E' & L' & S').
    exists mask'. split; [exact E'|]. split; [lia|].
    intros jj ii Hj Hi.
    destruct (S' jj ii Hj Hi) as [[Hin Hv]|[Hnin Hv]].
    + left. split; [right; exact Hin | exact Hv].
    + rewrite S1 in Hv. fold (index params yy xx) in Hv.
      destruct (decide (index params jj ii = index params yy xx)) as [He|Hne].
      * apply index_inj in He as [-> ->]; [|lia|lia].
        left. split; [left | exact Hv].
      * right. split; [|exact Hv].
        intros Hin. apply elem_of_cons in Hin as [Heq|Hin]; [|tauto].
        injection Heq as -> ->. apply Hne. reflexivity.
Qed.

End Obstacles.

Module DemoMask.
(** an obstacle file naming the cells [(x, y) = (2, 0)] and [(1, 1)] of
    the 3x3 grid, the second one twice *)
Definition lines : list scan :=
  [Scanned 2 0 1; Scanned 1 1 1; Scanned 1 1 1].
(** the mask as [_mm_malloc] may leave it *)
Definition dirty : list Z := [7; 7; 7; 7; 7; 7; 7; 7; 7].
End DemoMask.

(** When every line of the obstacle file names a cell of the grid with
    the flag 1, [initialise] builds a mask of [nx * ny] entries that
    holds 1 at exactly the cells named in the file and 0 everywhere
    else, whatever the allocated memory held. *)
Theorem load_obstacles_builds_mask {F : Type} {AF : Arith F}
    (params : t_param F) (lines : list scan) (buf : list Z) :
  Z.of_nat (length buf) = nx params * ny params ->
  Forall (valid_line params) lines ->
  exists mask,
    load_obstacles params lines buf = inr mask /\
    length mask = length buf /\
    forall jj ii, 0 <= jj < ny params -> 0 <= ii < nx params ->
      ((Scanned ii jj 1 ∈ lines) /\
       obstacle_at mask (index params jj ii) = 1) \/
      ((Scanned ii jj 1 ∉ lines) /\
       obstacle_at mask (index params jj ii) = 0).
Proof.
  intros Hlen Hall. unfold load_obstacles.
  destruct (zero_obstacles_spec params buf Hlen) as (z & Ez & Lz & Hz).
  rewrite Ez.
  destruct (read_obstacles_valid params lines Hall z ltac:(lia))
    as (mask & E & L & S).
  exists mask. split; [exact E|]. split; [lia|].
  intros jj ii Hj Hi.
  destruct (S jj ii Hj Hi) as [H|[Hnin Hv]]; [left; exact H|].
  right. split; [exact Hnin|]. rewrite Hv. apply Hz; assumption.
Qed.

Lemma load_obstacles_builds_mask_witness :
  exists mask,
    load_obstacles Demo.params DemoMask.lines DemoMask.dirty = inr mask /\
    length mask = length DemoMask.dirty /\
    forall jj ii, 0 <= jj < ny Demo.params -> 0 <= ii < nx Demo.params ->
      ((Scanned ii jj 1 ∈ DemoMask.lines) /\
       obstacle_at mask (index Demo.params jj ii) = 1) \/
      ((Scanned ii jj 1 ∉ DemoMask.lines) /\
       obstacle_at mask (index Demo.params jj ii) = 0).
Proof.
  apply (load_obstacles_builds_mask Demo.params DemoMask.lines DemoMask.dirty);
    [reflexivity |].
  repeat constructor; simpl; lia.
Defined.

Example load_obstacles_demo :
  load_obstacles Demo.params DemoMask.lines DemoMask.dirty
  = inr [0; 0; 1; 0; 1; 0; 0; 0; 0].
Proof. vm_compute. reflexivity. Qed.

Section ObstacleErrors.

Context {F : Type} {AF : Arith F}.
Variable params : t_param F.

Lemma read_obstacles_app (good : list scan) :
  Forall (valid_line params) good ->
  forall mask,
    Z.of_nat (length mask) = nx params * ny params ->
    exists mask',
      length mask' = length mask /\
      forall tail, read_obstacles params (good ++ tail) mask
                   = read_obstacles params tail mask'.
Proof.
  induction 1 as [|l good Hl Hall IH]; intros mask Hlen.
  - exists mask. split; reflexivity.
  - destruct l as [xx yy blocked|n]; [|destruct Hl].
    destruct Hl as (Hx & Hy & ->).
    destruct (store_int_spec mask (xx + yy * nx params) 1)
      as (m1 & E1 & L1 & _).
    { pose proof (index_range params yy xx Hy Hx) as Hr.
      unfold index in Hr. lia. }
    destruct (IH m1 ltac:(lia)) as (mask' & L' & T').
    exists mask'. split; [lia|]. intros tail.
    cbn [app read_obstacles].
    rewrite decide_False by lia. rewrite decide_False by lia.
    rewrite decide_False by (intros H; apply H; reflexivity).
    rewrite E1. apply T'.
Qed.

Lemma read_obstacles_cases (lines : list scan) : forall mask,
  Z.of_nat (length mask) = nx params * ny params ->
  (exists m, read_obstacles params lines mask = inr m /\
             Forall (valid_line params) lines) \/
  (exists e, read_obstacles params lines mask = inl e /\ e <> MaskFault).
Proof.
  induction lines as [|l lines IH]; intros mask Hlen.
  - left. exists mask. split; [reflexivity | constructor].
  - destruct l as [xx yy blocked|n]; cbn [read_obstacles].
    2:{ right. eexists. split; [reflexivity | discriminate]. }
    destruct (decide (xx < 0 \/ xx > nx params - 1)).
    { right. eexists. split; [reflexivity | discriminate]. }
    destruct (decide (yy < 0 \/ yy > ny params - 1)).
    { right. eexists. split; [reflexivity | discriminate]. }
    destruct (decide (blocked ≠ 1)) as [|Hb].
    { right. eexists. split; [reflexivity | discriminate]. }
    assert (blocked = 1) as -> by (destruct (decide (blocked = 1)); tauto).
    destruct (store_int_spec mask (xx + yy * nx params) 1)
      as (m1 & E1 & L1 & _).
    { pose proof (index_range params yy xx ltac:(lia) ltac:(lia)) as Hr.
      unfold index in Hr. lia. }
    rewrite E1.
    destruct (IH m1 ltac:(lia)) as [(m & E & Hall)|(e & E & He)].
    + left. exists m. split; [exact E|].
      constructor; [cbn; lia | exact Hall].
    + right. exists e. split; assumption.
Qed.

End ObstacleErrors.

(** [initialise] never stores outside the mask while it reads the
    obstacle file, it accepts a file only if every line is valid, and
    the first invalid line decides the message it dies with: a line of
    fewer than three values first, then the x coordinate, then the y
    coordinate, then the flag. *)
Theorem load_obstacles_rejects {F : Type} {AF : Arith F}
    (params : t_param F) (lines : list scan) (buf : list Z) :
  Z.of_nat (length buf) = nx params * ny params ->
  load_obstacles params lines buf <> inl MaskFault /\
  (forall mask, load_obstacles params lines buf = inr mask ->
     Forall (valid_line params) lines) /\
  forall good bad rest,
    lines = good ++ bad :: rest ->
    Forall (valid_line params) good ->
    match bad with
    | Short _ => load_obstacles params lines buf = inl Expected3
    | Scanned xx yy blocked =>
        (xx < 0 \/ nx params <= xx ->
         load_obstacles params lines buf = inl XOutOfRange) /\
        (0 <= xx < nx params -> yy < 0 \/ ny params <= yy ->
         load_obstacles params lines buf = inl YOutOfRange) /\
        (0 <= xx < nx params -> 0 <= yy < ny params -> blocked <> 1 ->
         load_obstacles params lines buf = inl BlockedNot1)
    end.
Proof.
  intros Hlen. unfold load_obstacles.
  destruct (zero_obstacles_spec params buf Hlen) as (z & Ez & Lz & _).
  rewrite Ez.
  assert (Hz : Z.of_nat (length z) = nx params * ny params) by lia.
  split; [|split].
  - destruct (read_obstacles_cases params lines z Hz)
      as [(m & E & _)|(e & E & He)]; rewrite E; congruence.
  - intros mask E.
    destruct (read_obstacles_cases params lines z Hz)
      as [(m & _ & Hall)|(e & E' & _)]; [exact Hall | congruence].
  - intros good bad rest -> Hgood.
    destruct (read_obstacles_app params good Hgood z Hz) as (z' & _ & T).
    rewrite T. destruct bad as [xx yy blocked|n]; [|reflexivity].
    cbn [read_obstacles]. split; [|split].
    + intros Hx. rewrite decide_True by lia. reflexivity.
    + intros Hx Hy. rewrite decide_False by lia.
      rewrite decide_True by lia. reflexivity.
    + intros Hx Hy Hb. rewrite decide_False by lia.
      rewrite decide_False by lia. rewrite decide_True by exact Hb.
      reflexivity.
Qed.

Lemma load_obstacles_rejects_witness :
  let lines := [Scanned 2 0 1; Scanned 3 5 0; Short 1] in
  load_obstacles Demo.params lines DemoMask.dirty <> inl MaskFault /\
  (forall mask, load_obstacles Demo.params lines DemoMask.dirty = inr mask ->
     Forall (valid_line Demo.params) lines) /\
  forall good bad rest,
    lines = good ++ bad :: rest ->
    Forall (valid_line Demo.params) good ->
    match bad with
    | Short _ =>
        load_obstacles Demo.params lines DemoMask.dirty = inl Expected3
    | Scanned xx yy blocked =>
        (xx < 0 \/ nx Demo.params <= xx ->
         load_obstacles Demo.params lines DemoMask.dirty = inl XOutOfRange) /\
        (0 <= xx < nx Demo.params -> yy < 0 \/ ny Demo.params <= yy ->
         load_obstacles Demo.params lines DemoMask.dirty = inl YOutOfRange) /\
        (0 <= xx < nx Demo.params -> 0 <= yy < ny Demo.params ->
         blocked <> 1 ->
         load_obstacles Demo.params lines DemoMask.dirty = inl BlockedNot1)
    end.
Proof.
  apply (load_obstacles_rejects Demo.params
           [Scanned 2 0 1; Scanned 3 5 0; Short 1] DemoMask.dirty).
  reflexivity.
Defined.

(** A line with both coordinates out of range and a wrong flag is
    reported for its x coordinate. *)
Example load_obstacles_reports_x_first :
  load_obstacles Demo.params [Scanned 2 0 1; Scanned 3 5 0; Short 1]
    DemoMask.dirty = inl XOutOfRange.
Proof. vm_compute. reflexivity. Qed.

(** ** What the timestep loop leaves behind *)

Lemma take_two_inserts {A : Type} (n : nat) : forall (l : list A) a b,
  (S n < length l)%nat ->
  take (S (S n)) (<[S n := b]> (<[n := a]> l)) = take n l ++ [a; b].
Proof.
  induction n as [|n IH]; intros l a b Hl.
  - destruct l as [|x [|y l]]; cbn in Hl; try lia. reflexivity.
  - destruct l as [|x l]; cbn in Hl; [lia|].
    cbn. f_equal. apply (IH l a b). lia.
Qed.

Section DriverSteps.

Context {F : Type} {AF : Arith F}.
Variable params : t_param F.
Variable obstacles : list Z.

Hypothesis nx_pos : 0 < nx params.
Hypothesis ny_two : 2 <= ny params.
Hypothesis obstacles_len :
  Z.of_nat (length obstacles) = nx params * ny params.

Lemma main_loop_steps (m : nat) : forall fuel tt st,
  (m < fuel)%nat -> 0 <= tt ->
  maxIters params = tt + 2 * Z.of_nat m ->
  main_state_ok params st ->
  exists c t avs,
    run_steps (2 * m) params (st_cells st) (st_tmp_cells st) obstacles
      = Some (c, t, avs) /\
    length avs = (2 * m)%nat /\
    main_loop fuel params obstacles tt st
    = inr {| st_cells := c; st_tmp_cells := t;
             st_av_vels := take (Z.to_nat tt) (st_av_vels st) ++ avs;
             st_calls := (st_calls st + 2 * m)%nat |}.
Proof.
  induction m as [|m IH]; intros fuel tt st Hf Ht Hm (Wc & Wt & Hl).
  - destruct fuel as [|fuel]; [lia|]. cbn [main_loop].
    rewrite decide_False by lia.
    exists (st_cells st), (st_tmp_cells st), [].
    split; [reflexivity|]. split; [reflexivity|].
    rewrite take_ge by lia. rewrite app_nil_r, Nat.add_0_r.
    destruct st; reflexivity.
  - destruct fuel as [|fuel]; [lia|]. cbn [main_loop].
    rewrite decide_True by lia.
    destruct (timestep_spec params _ _ obstacles nx_pos ny_two Wc Wt
                obstacles_len) as (c1 & t1 & _ & E1 & Wc1 & Wt1 & _).
    rewrite E1.
    destruct (timestep_spec params _ _ obstacles nx_pos ny_two Wt1 Wc1
                obstacles_len) as (t2 & c2 & _ & E2 & Wt2 & Wc2 & _).
    unfold store_av. rewrite decide_True by lia.
    rewrite E2. rewrite decide_True by (rewrite length_insert; lia).
    destruct (IH fuel (tt + 2)
                {| st_cells := c2; st_tmp_cells := t2;
                   st_av_vels :=
                     <[Z.to_nat (tt + 1) :=
                         fdiv (tot_u_rows params t2 obstacles
                                 (Z.to_nat (ny params)))
                              (of_int (tot_cells_rows params obstacles
                                         (Z.to_nat (ny params))))]>
                       (<[Z.to_nat tt :=
                            fdiv (tot_u_rows params c1 obstacles
                                    (Z.to_nat (ny params)))
                                 (of_int (tot_cells_rows params obstacles
                                            (Z.to_nat (ny params))))]>
                          (st_av_vels st));
                   st_calls := S (S (st_calls st)) |})
      as (c & t & avs & Er & La & El); try lia.
    { split; [exact Wc2|]. split; [exact Wt2|]. cbn.
      rewrite !length_insert. lia. }
    cbn [st_cells st_tmp_cells st_av_vels st_calls] in Er, El.
    eexists c, t, (_ :: _ :: avs).
    replace (2 * S m)%nat with (S (S (2 * m))) by lia.
    split; [|split].
    + cbn [run_steps]. rewrite E1. cbn [mbind option_bind].
      rewrite E2. cbn [mbind option_bind]. rewrite Er. reflexivity.
    + cbn. lia.
    + rewrite El. f_equal. f_equal; [|lia].
      replace (Z.to_nat (tt + 2)) with (S (S (Z.to_nat tt))) by lia.
      replace (Z.to_nat (tt + 1)) with (S (Z.to_nat tt)) by lia.
      rewrite take_two_inserts by lia.
      rewrite <- app_assoc. reflexivity.
Qed.

End DriverSteps.

(** For an even [maxIters], the timestep loop of [main] ends with the
    state of [maxIters] consecutive steps in [cells] (the two buffers
    have exchanged their roles an even number of times), and [av_vels]
    holds the returned averages in the order of the steps: no entry of
    the allocated buffer is left unwritten. *)
Theorem main_loop_records_every_step {F : Type} {AF : Arith F}
    (params : t_param F) (obstacles : list Z) (st : main_state F) (m : nat) :
  0 < nx params -> 2 <= ny params ->
  Z.of_nat (length obstacles) = nx params * ny params ->
  maxIters params = 2 * Z.of_nat m ->
  main_state_ok params st ->
  exists c t avs,
    run_steps (2 * m) params (st_cells st) (st_tmp_cells st) obstacles
      = Some (c, t, avs) /\
    length avs = (2 * m)%nat /\
    main_loop (S (Z.to_nat (maxIters params))) params obstacles 0 st
    = inr {| st_cells := c; st_tmp_cells := t; st_av_vels := avs;
             st_calls := (st_calls st + 2 * m)%nat |}.
Proof.
  intros Hx Hy Hlen Hm Hok.
  destruct (main_loop_steps params obstacles Hx Hy Hlen m
              (S (Z.to_nat (maxIters params))) 0 st)
    as (c & t & avs & Er & La & El); try lia; try assumption.
  exists c, t, avs. split; [exact Er|]. split; [exact La|].
  rewrite El. reflexivity.
Qed.

Lemma main_loop_records_every_step_witness :
  exists c t avs,
    run_steps (2 * 1) (DemoRun.params 2) (st_cells (DemoRun.start 2))
      (st_tmp_cells (DemoRun.start 2)) Demo.obstacles
      = Some (c, t, avs) /\
    length avs = (2 * 1)%nat /\
    main_loop (S (Z.to_nat (maxIters (DemoRun.params 2)))) (DemoRun.params 2)
      Demo.obstacles 0 (DemoRun.start 2)
    = inr {| st_cells := c; st_tmp_cells := t; st_av_vels := avs;
             st_calls := (st_calls (DemoRun.start 2) + 2 * 1)%nat |}.
Proof.
  apply (main_loop_records_every_step (DemoRun.params 2) Demo.obstacles
           (DemoRun.start 2) 1);
    [reflexivity | simpl; lia | reflexivity | reflexivity |].
  split; [exact Demo.grid_wf|]. split; [exact Demo.blank_wf | reflexivity].
Defined.

(** ** The total density along a run *)


Section RunMass.

Local Open Scope R_scope.

Variable params : t_param R.
Variable obstacles : list Z.

Hypothesis nx_pos : (0 < nx params)%Z.
Hypothesis ny_two : (2 <= ny params)%Z.
Hypothesis obstacles_len :
  Z.of_nat (length obstacles) = (nx params * ny params)%Z.




End RunMass.





(** ** av_velocity *)

Section AvVelocity.

Context {F : Type} {AF : Arith F}.
Variable params : t_param F.
Variable cells : t_speed F.
Variable obstacles : list Z.

Hypothesis cells_wf : wf (nx params * ny params) cells.
Hypothesis obstacles_len :
  Z.of_nat (length obstacles) = nx params * ny params.

(** The norm of the velocity [av_velocity] computes for the cell of
    linear index [i]. *)
Definition cell_velocity (i : Z) : F :=
  let local_density :=
    fold_upto NSPEEDS
      (fun kk ld => fadd ld (peek cells (Z.to_nat kk) i)) (of_int 0) in
  let u_x :=
    fdiv (fsub (fadd (fadd (peek cells 1 i) (peek cells 5 i)) (peek cells 8 i))
               (fadd (fadd (peek cells 3 i) (peek cells 6 i)) (peek cells 7 i)))
         local_density in
  let u_y :=
    fdiv (fsub (fadd (fadd (peek cells 2 i) (peek cells 5 i)) (peek cells 6 i))
               (fadd (fadd (peek cells 4 i) (peek cells 7 i)) (peek cells 8 i)))
         local_density in
  fsqrt (fadd (fmul u_x u_x) (fmul u_y u_y)).

(** One iteration of the inner loop on [(tot_u, tot_cells)]. *)
Definition av_step (jj ii : Z) (st : F * Z) : F * Z :=
  if decide (obstacle_at obstacles (index params jj ii) = 0)
  then (fadd st.1 (cell_velocity (index params jj ii)), st.2 + 1)
  else st.

Definition av_sums : F * Z :=
  fold_upto (Z.to_nat (ny params)) (fun jj st =>
    fold_upto (Z.to_nat (nx params)) (fun ii st => av_step jj ii st) st)
    (of_int 0, 0).

Lemma av_velocity_spec :
  av_velocity params cells obstacles
  = Some (fdiv av_sums.1 (of_int av_sums.2)).
Proof.
  unfold av_velocity.
  rewrite (for_loop_pure _ _ (fun jj st =>
             fold_upto (Z.to_nat (nx params))
               (fun ii st => av_step jj ii st) st)).
  { reflexivity. }
  intros jj st Hj. apply for_loop_pure. intros ii st' Hi.
  pose proof (index_range params jj ii ltac:(lia) ltac:(lia)) as Hr.
  unfold index in Hr. cbv zeta.
  rewrite load_int_total by lia. cbn [mbind option_bind].
  unfold av_step. fold (index params jj ii).
  destruct (decide (obstacle_at obstacles (index params jj ii) = 0));
    [|reflexivity].
  rewrite (for_loop_pure _ _ (fun kk ld =>
             fadd ld (peek cells (Z.to_nat kk) (index params jj ii)))).
  2:{ intros kk ld Hk.
      rewrite (load_wf (nx params * ny params));
        [reflexivity | exact cells_wf | lia | unfold index; lia]. }
  cbn [mbind option_bind].
  rewrite !(load_wf (nx params * ny params) cells)
    by (exact cells_wf || (unfold NSPEEDS; lia) || (unfold index; lia)).
  reflexivity.
Qed.

End AvVelocity.

Lemma fold_upto_pair {A B : Type} (n : nat) (G : Z -> A * B -> A * B)
    (g : Z -> A -> A) (h : Z -> B -> B) (a : A) (b : B) :
  (forall i st, 0 <= i < Z.of_nat n -> G i st = (g i st.1, h i st.2)) ->
  fold_upto n G (a, b) = (fold_upto n g a, fold_upto n h b).
Proof.
  induction n as [|n IH]; intros HG; [reflexivity|].
  cbn [fold_upto]. rewrite IH by (intros; apply HG; lia).
  rewrite HG by lia. reflexivity.
Qed.

(** On a grid whose cells are all obstacles, [av_velocity] divides a
    zero sum by a zero count: in binary32 it returns NaN, and so does
    [calc_reynolds], whatever [omega] and [reynolds_dim]. *)
Theorem av_velocity_all_obstacles
    (params : t_param F32.float) (cells : t_speed F32.float)
    (obstacles : list Z) :
  wf (nx params * ny params) cells ->
  Z.of_nat (length obstacles) = nx params * ny params ->
  (forall i, 0 <= i < nx params * ny params -> obstacle_at obstacles i ≠ 0) ->
  av_velocity params cells obstacles = Some S754_nan /\
  calc_reynolds params cells obstacles = Some S754_nan.
Proof.
  intros W Hlen Hall.
  assert (E : av_velocity params cells obstacles = Some S754_nan).
  { rewrite av_velocity_spec by assumption. unfold av_sums.
    rewrite fold_upto_fixed; [reflexivity|].
    intros jj Hj. apply fold_upto_fixed. intros ii Hi. unfold av_step.
    rewrite decide_False; [reflexivity|].
    apply Hall, index_range; lia. }
  split; [exact E|]. unfold calc_reynolds. rewrite E. reflexivity.
Qed.

Lemma av_velocity_all_obstacles_witness :
  av_velocity Demo.params Demo.cells (replicate 9 1) = Some S754_nan /\
  calc_reynolds Demo.params Demo.cells (replicate 9 1) = Some S754_nan.
Proof.
  apply (av_velocity_all_obstacles Demo.params Demo.cells (replicate 9 1));
    [exact Demo.grid_wf | reflexivity |].
  intros i Hi. change (nx Demo.params * ny Demo.params) with 9 in Hi.
  assert (Hc : i = 0 \/ i = 1 \/ i = 2 \/ i = 3 \/ i = 4 \/ i = 5 \/ i = 6
               \/ i = 7 \/ i = 8) by lia.
  destruct Hc as [->|[->|[->|[->|[->|[->|[->|[->| ->]]]]]]]];
    vm_compute; discriminate.
Defined.

(** With [omega = 2] the viscosity [1/6 * (2/omega - 1)] is zero, and
    in binary32 [calc_reynolds] returns an infinity or NaN on every
    grid: never a finite number. *)
Theorem calc_reynolds_omega_two
    (params : t_param F32.float) (cells : t_speed F32.float)
    (obstacles : list Z) :
  omega params = of_int 2 ->
  wf (nx params * ny params) cells ->
  Z.of_nat (length obstacles) = nx params * ny params ->
  exists r,
    calc_reynolds params cells obstacles = Some r /\
    (r = S754_nan \/ exists s, r = S754_infinity s).
Proof.
  intros Ho W Hlen. unfold calc_reynolds.
  rewrite av_velocity_spec by assumption. cbn [mbind option_bind].
  rewrite Ho. eexists. split; [reflexivity|].
  change (fmul (fdiv (of_int 1) (of_int 6))
            (fsub (fdiv (of_int 2) (of_int 2)) (of_int 1)))
    with (S754_zero false).
  destruct (fmul _ _) as [s|s| |s m e]; cbn; eauto.
Qed.

Lemma calc_reynolds_omega_two_witness :
  exists r,
    calc_reynolds
      {| nx := 3; ny := 3; maxIters := 2; reynolds_dim := 10;
         density := of_int 1; accel := of_int 0; omega := of_int 2 |}
      Demo.cells Demo.obstacles = Some r /\
    (r = S754_nan \/ exists s, r = S754_infinity s).
Proof.
  apply (calc_reynolds_omega_two
           {| nx := 3; ny := 3; maxIters := 2; reynolds_dim := 10;
              density := of_int 1; accel := of_int 0; omega := of_int 2 |}
           Demo.cells Demo.obstacles);
    [reflexivity | exact Demo.grid_wf | reflexivity].
Defined.

(** ** Momentum *)

(** The momentum of a cell whose speed [k] holds [v k]. *)
Definition momentum_x (v : nat -> R) : R :=
  (v 1%nat + v 5%nat + v 8%nat - (v 3%nat + v 6%nat + v 7%nat))%R.
Definition momentum_y (v : nat -> R) : R :=
  (v 2%nat + v 5%nat + v 6%nat - (v 4%nat + v 7%nat + v 8%nat))%R.

Section Momentum.

Local Open Scope R_scope.

Variable params : t_param R.

(** the value written for speed [k] *)
Definition written (out : list R) (k : nat) : R := default 0 (out !! k).

Lemma rebound_momentum (g : cell9 R) :
  momentum_x (written (rebound_out g)) = - momentum_x (nth9 g) /\
  momentum_y (written (rebound_out g)) = - momentum_y (nth9 g).
Proof.
  destruct g as [[[[[[[[s0 s1] s2] s3] s4] s5] s6] s7] s8].
  unfold momentum_x, momentum_y, written. cbn. split; ring.
Qed.

Lemma collide_momentum (g : cell9 R) :
  local_density_of g <> 0 ->
  momentum_x (written (collide_out params g)) = momentum_x (nth9 g) /\
  momentum_y (written (collide_out params g)) = momentum_y (nth9 g).
Proof.
  intros Hld.
  assert (Hx : momentum_x (nth9 g) = u_x_of g * local_density_of g).
  { destruct g as [[[[[[[[s0 s1] s2] s3] s4] s5] s6] s7] s8].
    unfold momentum_x. cbn in *. field. exact Hld. }
  assert (Hy : momentum_y (nth9 g) = u_y_of g * local_density_of g).
  { destruct g as [[[[[[[[s0 s1] s2] s3] s4] s5] s6] s7] s8].
    unfold momentum_y. cbn in *. field. exact Hld. }
  assert (Hcx : momentum_x (written (collide_out params g))
                = momentum_x (nth9 g)
                  + omega params * (local_density_of g * u_x_of g
                                    - momentum_x (nth9 g))).
  { clear Hx Hy Hld. unfold collide_out.
    destruct g as [[[[[[[[s0 s1] s2] s3] s4] s5] s6] s7] s8].
    set (vx := u_x_of _). set (vy := u_y_of _).
    set (rho := local_density_of _). clearbody vx vy rho.
    unfold momentum_x, written. cbn. field. }
  assert (Hcy : momentum_y (written (collide_out params g))
                = momentum_y (nth9 g)
                  + omega params * (local_density_of g * u_y_of g
                                    - momentum_y (nth9 g))).
  { clear Hx Hy Hcx Hld. unfold collide_out.
    destruct g as [[[[[[[[s0 s1] s2] s3] s4] s5] s6] s7] s8].
    set (vx := u_x_of _). set (vy := u_y_of _).
    set (rho := local_density_of _). clearbody vx vy rho.
    unfold momentum_y, written. cbn. field. }
  split; [rewrite Hcx, Hx | rewrite Hcy, Hy]; ring.
Qed.

Lemma collide_density (g : cell9 R) :
  0 + written (collide_out params g) 0 + written (collide_out params g) 1
  + written (collide_out params g) 2 + written (collide_out params g) 3
  + written (collide_out params g) 4 + written (collide_out params g) 5
  + written (collide_out params g) 6 + written (collide_out params g) 7
  + written (collide_out params g) 8
  = local_density_of g.
Proof.
  unfold collide_out.
  destruct g as [[[[[[[[s0 s1] s2] s3] s4] s5] s6] s7] s8].
  set (vx := u_x_of _). set (vy := u_y_of _). clearbody vx vy.
  unfold written. cbn. field.
Qed.

End Momentum.

(** In exact arithmetic, bounce-back reverses the momentum of the
    values gathered in an obstacle cell, and relaxation keeps the
    momentum of the values gathered in a fluid cell whose density is not
    zero, for every [omega]. *)
Theorem propagate_momentum
    (params : t_param R) (cells tmp_cells : t_speed R)
    (obstacles : list Z) (jj ii : Z) :
  0 < nx params -> 0 < ny params ->
  wf (nx params * ny params) cells ->
  wf (nx params * ny params) tmp_cells ->
  Z.of_nat (length obstacles) = nx params * ny params ->
  0 <= jj < ny params -> 0 <= ii < nx params ->
  exists g tmp' av,
    gather params cells jj ii = Some g /\
    propagate params cells tmp_cells obstacles = Some (tmp', av) /\
    let out k := peek tmp' k (index params jj ii) in
    (obstacle_at obstacles (index params jj ii) ≠ 0 ->
     momentum_x out = (- momentum_x (nth9 g))%R /\
     momentum_y out = (- momentum_y (nth9 g))%R) /\
    (obstacle_at obstacles (index params jj ii) = 0 ->
     local_density_of g <> 0%R ->
     momentum_x out = momentum_x (nth9 g) /\
     momentum_y out = momentum_y (nth9 g)).
Proof.
  intros Hx Hy W Wt Hlen Hj Hi.
  destruct (propagate_spec params cells obstacles Hx Hy W Hlen tmp_cells Wt)
    as (tmp' & E & W' & L).
  exists (gather_at params cells jj ii), tmp'. eexists.
  split; [apply gather_total; assumption|]. split; [exact E|].
  intros out.
  assert (Hout : forall k, (k < NSPEEDS)%nat ->
            out k = written (out_at params cells obstacles jj ii) k).
  { intros k Hk. unfold out, peek, written. rewrite L by assumption.
    reflexivity. }
  assert (Hmx : momentum_x out
                = momentum_x (written (out_at params cells obstacles jj ii))).
  { unfold momentum_x. rewrite !Hout by (unfold NSPEEDS; lia). reflexivity. }
  assert (Hmy : momentum_y out
                = momentum_y (written (out_at params cells obstacles jj ii))).
  { unfold momentum_y. rewrite !Hout by (unfold NSPEEDS; lia). reflexivity. }
  rewrite Hmx, Hmy. unfold out_at. split.
  - intros Ho. rewrite decide_True by exact Ho. apply rebound_momentum.
  - intros Ho Hld. rewrite decide_False by (intros H; apply H, Ho).
    apply collide_momentum, Hld.
Qed.

Lemma propagate_momentum_witness :
  exists g tmp' av,
    gather DemoR.params DemoR.cells 0 0 = Some g /\
    propagate DemoR.params DemoR.cells DemoR.cells DemoR.obstacles
      = Some (tmp', av) /\
    let out k := peek tmp' k (index DemoR.params 0 0) in
    (obstacle_at DemoR.obstacles (index DemoR.params 0 0) ≠ 0 ->
     momentum_x out = (- momentum_x (nth9 g))%R /\
     momentum_y out = (- momentum_y (nth9 g))%R) /\
    (obstacle_at DemoR.obstacles (index DemoR.params 0 0) = 0 ->
     local_density_of g <> 0%R ->
     momentum_x out = momentum_x (nth9 g) /\
     momentum_y out = momentum_y (nth9 g)).
Proof.
  apply (propagate_momentum DemoR.params DemoR.cells DemoR.cells
           DemoR.obstacles 0 0);
    [reflexivity | reflexivity | exact DemoR.one_cell_wf
    | exact DemoR.one_cell_wf | reflexivity | simpl; lia | simpl; lia].
Defined.

(** ** The average of a step and av_velocity *)

Lemma cell_velocity_after_collision
    (params : t_param R) (tmp' : t_speed R) (g : cell9 R) (i : Z) :
  (forall k, (k < NSPEEDS)%nat ->
     peek tmp' k i = written (collide_out params g) k) ->
  local_density_of g <> 0%R ->
  cell_velocity tmp' i = speed_of g.
Proof.
  intros Hp Hld. unfold cell_velocity, speed_of.
  cbn [fold_upto NSPEEDS]. rewrite !Nat2Z.id.
  rewrite !Hp by (unfold NSPEEDS; lia).
  cbn [fadd fsub fmul fdiv fsqrt of_int R_arith].
  rewrite (collide_density params g).
  fold (momentum_x (written (collide_out params g))).
  fold (momentum_y (written (collide_out params g))).
  destruct (collide_momentum params g Hld) as [-> ->].
  assert (Hx : (momentum_x (nth9 g) / local_density_of g)%R = u_x_of g).
  { destruct g as [[[[[[[[s0 s1] s2] s3] s4] s5] s6] s7] s8].
    unfold momentum_x. cbn in *. field. exact Hld. }
  assert (Hy : (momentum_y (nth9 g) / local_density_of g)%R = u_y_of g).
  { destruct g as [[[[[[[[s0 s1] s2] s3] s4] s5] s6] s7] s8].
    unfold momentum_y. cbn in *. field. exact Hld. }
  rewrite Hx, Hy. reflexivity.
Qed.

(** In exact arithmetic, when no fluid cell gathers a zero density, the
    average [propagate] returns for a step is the value [av_velocity]
    computes afterwards from the buffer [propagate] has written: the
    collision changes neither the density nor the momentum of a cell. *)
Theorem av_velocity_matches_propagate
    (params : t_param R) (cells tmp_cells : t_speed R) (obstacles : list Z) :
  0 < nx params -> 0 < ny params ->
  wf (nx params * ny params) cells ->
  wf (nx params * ny params) tmp_cells ->
  Z.of_nat (length obstacles) = nx params * ny params ->
  (forall jj ii g, 0 <= jj < ny params -> 0 <= ii < nx params ->
     obstacle_at obstacles (index params jj ii) = 0 ->
     gather params cells jj ii = Some g -> local_density_of g <> 0%R) ->
  exists tmp' av,
    propagate params cells tmp_cells obstacles = Some (tmp', av) /\
    av_velocity params tmp' obstacles = Some av.
Proof.
  intros Hx Hy W Wt Hlen Hld.
  destruct (propagate_spec params cells obstacles Hx Hy W Hlen tmp_cells Wt)
    as (tmp' & E & W' & L).
  exists tmp'. eexists. split; [exact E|].
  rewrite (av_velocity_spec params tmp' obstacles W' Hlen).
  assert (Hs : av_sums params tmp' obstacles
               = (tot_u_rows params cells obstacles (Z.to_nat (ny params)),
                  tot_cells_rows params obstacles (Z.to_nat (ny params)))).
  { unfold av_sums, tot_u_rows, tot_cells_rows.
    apply fold_upto_pair. intros jj [a b] Hj.
    apply fold_upto_pair. intros ii [u n] Hi.
    unfold av_step, u_at, n_at. cbn [fst snd].
    destruct (decide (obstacle_at obstacles (index params jj ii) = 0))
      as [Ho|Ho].
    - rewrite !decide_False by (intros H; apply H, Ho).
      rewrite (cell_velocity_after_collision params tmp'
                 (gather_at params cells jj ii)).
      + reflexivity.
      + intros k Hk. unfold peek, written.
        rewrite L by (lia || assumption). unfold out_at.
        rewrite decide_False by (intros H; apply H, Ho). reflexivity.
      + apply (Hld jj ii); [lia | lia | exact Ho |].
        apply gather_total; (assumption || lia).
    - rewrite !decide_True by exact Ho. cbn. f_equal; [lra | lia]. }
  rewrite Hs. reflexivity.
Qed.

Lemma av_velocity_matches_propagate_witness :
  exists tmp' av,
    propagate DemoR.params DemoR.cells DemoR.cells DemoR.obstacles
      = Some (tmp', av) /\
    av_velocity DemoR.params tmp' DemoR.obstacles = Some av.
Proof.
  apply (av_velocity_matches_propagate DemoR.params DemoR.cells DemoR.cells
           DemoR.obstacles);
    [reflexivity | reflexivity | exact DemoR.one_cell_wf
    | exact DemoR.one_cell_wf | reflexivity |].
  intros jj ii g Hj Hi _ Hg.
  change (ny DemoR.params) with 1 in Hj. change (nx DemoR.params) with 1 in Hi.
  assert (jj = 0) as -> by lia. assert (ii = 0) as -> by lia.
  change (gather DemoR.params DemoR.cells 0 0)
    with (Some (1, 1, 1, 1, 1, 1, 1, 1, 1)%R) in Hg.
  injection Hg as <-. cbn. lra.
Defined.

(** ** The files written by write_values *)

Lemma fold_upto_snoc {A : Type} (n : nat) (f : Z -> A) (out : list A) :
  fold_upto n (fun i o => o ++ [f i]) out
  = out ++ map (fun k => f (Z.of_nat k)) (seq 0 n).
Proof.
  induction n as [|n IH]; cbn [fold_upto].
  - cbn. rewrite app_nil_r. reflexivity.
  - rewrite IH, seq_S, map_app, app_assoc. reflexivity.
Qed.

Lemma fold_upto_rows {A : Type} (w : nat) (row : Z -> list A) (r : nat) :
  (forall jj, length (row jj) = w) ->
  length (fold_upto r (fun jj o => o ++ row jj) []) = (r * w)%nat /\
  forall jj ii, (jj < r)%nat -> (ii < w)%nat ->
    fold_upto r (fun jj o => o ++ row jj) [] !! (ii + jj * w)%nat
    = row (Z.of_nat jj) !! ii.
Proof.
  intros Hw. induction r as [|r [IHl IHr]]; cbn [fold_upto].
  - split; [reflexivity|]. intros; lia.
  - split; [rewrite length_app, IHl, Hw; lia|].
    intros jj ii Hj Hi. destruct (decide (jj = r)) as [->|Hne].
    + rewrite lookup_app_r by (rewrite IHl; lia).
      rewrite IHl. f_equal. lia.
    + rewrite lookup_app_l by (rewrite IHl; nia).
      apply IHr; lia.
Qed.

Section WriteValues.

Context {F : Type} {AF : Arith F}.
Variable params : t_param F.
Variable cells : t_speed F.
Variable obstacles : list Z.
Variable av_vels : list F.

Hypothesis nx_pos : 0 < nx params.
Hypothesis nx_le_ny : nx params <= ny params.
Hypothesis cells_wf : wf (nx params * ny params) cells.
Hypothesis obstacles_len :
  Z.of_nat (length obstacles) = nx params * ny params.
Hypothesis av_vels_len : maxIters params <= Z.of_nat (length av_vels).

(** The line [write_values] prints for the cell [(jj, ii)]. *)
Definition line_at (jj ii : Z) : state_line F :=
  let i := index params jj ii in
  let c_sq := fdiv (of_int 1) (of_int 3) in
  let flag := obstacle_at obstacles (ii * nx params + jj) in
  if decide (obstacle_at obstacles i ≠ 0) then
    {| line_ii := ii; line_jj := jj;
       line_u_x := of_int 0; line_u_y := of_int 0; line_u := of_int 0;
       line_pressure := fmul (density params) c_sq;
       line_obstacle := flag |}
  else
    let local_density :=
      fold_upto NSPEEDS
        (fun kk ld => fadd ld (peek cells (Z.to_nat kk) i)) (of_int 0) in
    let u_x :=
      fdiv (fsub (fadd (fadd (peek cells 1 i) (peek cells 5 i))
                       (peek cells 8 i))
                 (fadd (fadd (peek cells 3 i) (peek cells 6 i))
                       (peek cells 7 i))) local_density in
    let u_y :=
      fdiv (fsub (fadd (fadd (peek cells 2 i) (peek cells 5 i))
                       (peek cells 6 i))
                 (fadd (fadd (peek cells 4 i) (peek cells 7 i))
                       (peek cells 8 i))) local_density in
    {| line_ii := ii; line_jj := jj;
       line_u_x := u_x; line_u_y := u_y;
       line_u := fsqrt (fadd (fmul u_x u_x) (fmul u_y u_y));
       line_pressure := fmul local_density c_sq;
       line_obstacle := flag |}.

Lemma write_values_spec :
  write_values params cells obstacles av_vels
  = Some (fold_upto (Z.to_nat (ny params)) (fun jj out =>
            out ++ map (fun k => line_at jj (Z.of_nat k))
                       (seq 0 (Z.to_nat (nx params)))) [],
          map (fun k => (Z.of_nat k, default (of_int 0) (av_vels !! k)))
              (seq 0 (Z.to_nat (maxIters params)))).
Proof.
  unfold write_values.
  rewrite (for_loop_pure _ _ (fun jj out =>
             out ++ map (fun k => line_at jj (Z.of_nat k))
                        (seq 0 (Z.to_nat (nx params))))).
  - cbn [mbind option_bind].
    rewrite (for_loop_pure _ _ (fun ii out =>
               out ++ [(ii, default (of_int 0) (av_vels !! Z.to_nat ii))])).
    + cbn [mbind option_bind]. rewrite fold_upto_snoc. cbn [app].
      do 2 f_equal. apply map_ext. intros k. rewrite Nat2Z.id. reflexivity.
    + intros ii out Hi.
      destruct (lookup_lt_is_Some_2 av_vels (Z.to_nat ii) ltac:(lia))
        as [x Ex].
      rewrite Ex. reflexivity.
  - intros jj out Hj.
    rewrite (for_loop_pure _ _ (fun ii out => out ++ [line_at jj ii])).
    { rewrite fold_upto_snoc. reflexivity. }
    intros ii out' Hi.
    pose proof (index_range params jj ii ltac:(lia) ltac:(lia)) as Hr.
    unfold index in Hr. cbv zeta.
    assert (Hflag : 0 <= ii * nx params + jj < nx params * ny params).
    { assert (ii * nx params <= (nx params - 1) * nx params) by nia.
      assert ((nx params - 1) * nx params + ny params
              <= nx params * ny params) by nia.
      nia. }
    rewrite (load_int_total obstacles (ii + jj * nx params)) by lia.
    cbn [mbind option_bind].
    unfold line_at. fold (index params jj ii).
    destruct (decide (obstacle_at obstacles (index params jj ii) ≠ 0)).
    + cbn [mbind option_bind]. rewrite load_int_total by lia. reflexivity.
    + rewrite (for_loop_pure _ _ (fun kk ld =>
                 fadd ld (peek cells (Z.to_nat kk) (index params jj ii)))).
      2:{ intros kk ld Hk.
          rewrite (load_wf (nx params * ny params));
            [reflexivity | exact cells_wf | lia | unfold index; lia]. }
      cbn [mbind option_bind].
      rewrite !(load_wf (nx params * ny params) cells)
        by (exact cells_wf || (unfold NSPEEDS; lia) || (unfold index; lia)).
      cbn [mbind option_bind]. rewrite load_int_total by lia. reflexivity.
Qed.

End WriteValues.

(** On a grid with [0 < nx <= ny], [write_values] completes: the
    final-state file has one line per cell in row-major order, the line
    of the cell [(jj, ii)] carries [ii] and [jj], zero velocity and the
    pressure [density * c_sq] if the cell is an obstacle, the velocity
    norm that [av_velocity] averages if it is not, and as its flag the
    mask entry of linear index [ii * nx + jj]; the second file has one
    line [(i, av_vels[i])] for each [i < maxIters]. *)
Theorem write_values_lines {F : Type} {AF : Arith F}
    (params : t_param F) (cells : t_speed F) (obstacles : list Z)
    (av_vels : list F) :
  0 < nx params -> nx params <= ny params ->
  wf (nx params * ny params) cells ->
  Z.of_nat (length obstacles) = nx params * ny params ->
  maxIters params <= Z.of_nat (length av_vels) ->
  exists final avs,
    write_values params cells obstacles av_vels = Some (final, avs) /\
    Z.of_nat (length final) = nx params * ny params /\
    (forall jj ii, 0 <= jj < ny params -> 0 <= ii < nx params ->
       exists l,
         final !! Z.to_nat (index params jj ii) = Some l /\
         line_ii l = ii /\ line_jj l = jj /\
         line_obstacle l = obstacle_at obstacles (ii * nx params + jj) /\
         (obstacle_at obstacles (index params jj ii) ≠ 0 ->
          line_u_x l = of_int 0 /\ line_u_y l = of_int 0 /\
          line_u l = of_int 0 /\
          line_pressure l
          = fmul (density params) (fdiv (of_int 1) (of_int 3))) /\
         (obstacle_at obstacles (index params jj ii) = 0 ->
          line_u l = cell_velocity cells (index params jj ii))) /\
    length avs = Z.to_nat (maxIters params) /\
    forall i, 0 <= i < maxIters params ->
      avs !! Z.to_nat i = (fun x => (i, x)) <$> av_vels !! Z.to_nat i.
Proof.
  intros Hx Hxy W Hlen Hav.
  rewrite (write_values_spec params cells obstacles av_vels Hx Hxy W Hlen Hav).
  eexists. eexists. split; [reflexivity|].
  destruct (fold_upto_rows (Z.to_nat (nx params))
              (fun jj => map (fun k => line_at params cells obstacles jj
                                         (Z.of_nat k))
                             (seq 0 (Z.to_nat (nx params))))
              (Z.to_nat (ny params))) as [Hl Hr].
  { intros jj. rewrite length_map, length_seq. reflexivity. }
  split; [rewrite Hl; nia|]. split; [|split].
  - intros jj ii Hj Hi.
    exists (line_at params cells obstacles jj ii).
    split.
    { replace (Z.to_nat (index params jj ii))
        with (Z.to_nat ii + Z.to_nat jj * Z.to_nat (nx params))%nat
        by (unfold index; nia).
      rewrite Hr by lia.
      rewrite list_lookup_fmap, lookup_seq_lt by lia. cbn.
      rewrite !Z2Nat.id by lia. reflexivity. }
    unfold line_at.
    destruct (decide (obstacle_at obstacles (index params jj ii) ≠ 0))
      as [Ho|Ho]; cbn.
    + do 3 (split; [reflexivity|]).
      split; [intros _; auto | intros H0; contradiction].
    + do 3 (split; [reflexivity|]).
      split; [intros H0; contradiction | intros _; reflexivity].
  - rewrite length_map, length_seq. reflexivity.
  - intros i Hi. rewrite list_lookup_fmap, lookup_seq_lt by lia. cbn.
    rewrite Z2Nat.id by lia.
    destruct (lookup_lt_is_Some_2 av_vels (Z.to_nat i) ltac:(lia)) as [x Ex].
    rewrite Ex. reflexivity.
Qed.

Lemma write_values_lines_witness :
  exists final avs,
    write_values Demo.params Demo.cells Demo.obstacles [of_int 0; of_int 0]
      = Some (final, avs) /\
    Z.of_nat (length final) = nx Demo.params * ny Demo.params /\
    (forall jj ii, 0 <= jj < ny Demo.params -> 0 <= ii < nx Demo.params ->
       exists l,
         final !! Z.to_nat (index Demo.params jj ii) = Some l /\
         line_ii l = ii /\ line_jj l = jj /\
         line_obstacle l
         = obstacle_at Demo.obstacles (ii * nx Demo.params + jj) /\
         (obstacle_at Demo.obstacles (index Demo.params jj ii) ≠ 0 ->
          line_u_x l = of_int 0 /\ line_u_y l = of_int 0 /\
          line_u l = of_int 0 /\
          line_pressure l
          = fmul (density Demo.params) (fdiv (of_int 1) (of_int 3))) /\
         (obstacle_at Demo.obstacles (index Demo.params jj ii) = 0 ->
          line_u l = cell_velocity Demo.cells (index Demo.params jj ii))) /\
    length avs = Z.to_nat (maxIters Demo.params) /\
    forall i, 0 <= i < maxIters Demo.params ->
      avs !! Z.to_nat i
      = (fun x => (i, x)) <$> [of_int 0; of_int 0] !! Z.to_nat i.
Proof.
  apply (write_values_lines Demo.params Demo.cells Demo.obstacles
           [of_int 0; of_int 0]);
    [reflexivity | simpl; lia | exact Demo.grid_wf | reflexivity
    | simpl; lia].
Defined.

Lemma for_loop_fails {S : Type} (n : nat) : forall (k : nat) (i0 : Z)
    (body : Z -> S -> option S) (s : S),
  (k < n)%nat -> (forall s, body (i0 + Z.of_nat k) s = None) ->
  for_loop n i0 body s = None.
Proof.
  induction n as [|n IH]; intros k i0 body s Hk Hb; [lia|].
  cbn [for_loop]. destruct (body i0 s) as [s'|] eqn:E; [|reflexivity].
  cbn [mbind option_bind]. destruct k as [|k].
  - rewrite Z.add_0_r in Hb. rewrite Hb in E. discriminate.
  - apply (IH k); [lia|]. intros t. rewrite <- (Hb t). f_equal. lia.
Qed.

(** On a grid with more columns than rows, [write_values] reads the
    flag of the cell [(0, nx - 1)] at [obstacles[(nx - 1) * nx]], past
    the end of the mask, whatever the state. *)
Theorem write_values_wide_grid {F : Type} {AF : Arith F}
    (params : t_param F) (cells : t_speed F) (obstacles : list Z)
    (av_vels : list F) :
  0 < ny params -> ny params < nx params ->
  Z.of_nat (length obstacles) = nx params * ny params ->
  load_int obstacles ((nx params - 1) * nx params + 0) = None /\
  write_values params cells obstacles av_vels = None.
Proof.
  intros Hy Hxy Hlen.
  assert (Hflag : load_int obstacles ((nx params - 1) * nx params + 0) = None).
  { unfold load_int. destruct (decide _); [|reflexivity].
    apply lookup_ge_None_2.
    assert (nx params * ny params <= (nx params - 1) * nx params) by nia.
    lia. }
  split; [exact Hflag|]. unfold write_values.
  rewrite (for_loop_fails (Z.to_nat (ny params)) 0); [reflexivity | lia |].
  intros out. rewrite Z.add_0_l. change (Z.of_nat 0) with 0.
  apply (for_loop_fails (Z.to_nat (nx params)) (Z.to_nat (nx params - 1)));
    [lia|].
  intros out'. rewrite Z.add_0_l, Z2Nat.id by lia. cbv zeta.
  destruct (load_int obstacles (nx params - 1 + 0 * nx params));
    [|reflexivity].
  cbn [mbind option_bind].
  match goal with
  | |- mbind _ ?v = None => destruct v as [[[[? ?] ?] ?]|]; [|reflexivity]
  end.
  cbn [mbind option_bind]. rewrite Hflag. reflexivity.
Qed.

Lemma write_values_wide_grid_witness :
  load_int [0; 0; 0] ((nx DemoOut.wide - 1) * nx DemoOut.wide + 0) = None /\
  write_values DemoOut.wide DemoOut.wide_cells [0; 0; 0] [] = None.
Proof.
  apply (write_values_wide_grid DemoOut.wide DemoOut.wide_cells [0; 0; 0] []);
    reflexivity.
Defined.

(** For every odd [maxIters], on every valid grid, the timestep loop of
    [main] calls [timestep] [maxIters + 1] times and then stores at
    [av_vels[maxIters]], one entry past the end of the buffer. *)
Theorem main_loop_odd_overruns {F : Type} {AF : Arith F}
    (params : t_param F) (obstacles : list Z) (st : main_state F) (m : nat) :
  0 < nx params -> 2 <= ny params ->
  Z.of_nat (length obstacles) = nx params * ny params ->
  maxIters params = 2 * Z.of_nat m + 1 ->
  main_state_ok params st ->
  main_loop (S (Z.to_nat (maxIters params))) params obstacles 0 st
  = inl (AvVelsFault (maxIters params)
           (st_calls st + Z.to_nat (maxIters params) + 1)).
Proof.
  intros Hx Hy Hlen Hm Hok.
  rewrite (main_loop_odd params obstacles Hx Hy Hlen m
             (S (Z.to_nat (maxIters params))) 0 st) by (lia || assumption).
  do 2 f_equal. lia.
Qed.

Lemma main_loop_odd_overruns_witness :
  main_loop (S (Z.to_nat (maxIters (DemoRun.params 3)))) (DemoRun.params 3)
    Demo.obstacles 0 (DemoRun.start 3)
  = inl (AvVelsFault (maxIters (DemoRun.params 3))
           (st_calls (DemoRun.start 3)
            + Z.to_nat (maxIters (DemoRun.params 3)) + 1)).
Proof.
  apply (main_loop_odd_overruns (DemoRun.params 3) Demo.obstacles
           (DemoRun.start 3) 1);
    [reflexivity | simpl; lia | reflexivity | reflexivity |].
  split; [exact Demo.grid_wf|]. split; [exact Demo.blank_wf | reflexivity].
Defined.
